(** * osx_cal_add_event: date / duration parsing and request validation

    A shallow embedding of [osx_cal_add_event.py]: the functions
    [parse_date], [parse_duration], [resolve_calendar_by_name] and the
    body of the [__main__] block up to the call of [create_event].

    Python strings are modelled as lists of 8-bit characters, read as the
    code points U+0000..U+00FF.  The parts of the Python standard library
    the script calls ([str.strip], [str.split], [int], [datetime.timedelta],
    [datetime.datetime], [datetime.datetime.strptime]) are modelled next
    to the code that uses them, following CPython's behaviour on such
    strings. *)

From Stdlib Require Import ZArith List Ascii String Bool Lia.
Import ListNotations.

Local Open Scope Z_scope.

(** ** Strings *)

Definition str := list ascii.

(** A string literal of the source. *)
Definition py (s : string) : str := list_ascii_of_string s.

Definition ord (c : ascii) : Z := Z.of_N (N_of_ascii c).

Definition in_range (lo hi : Z) (c : ascii) : bool :=
  (lo <=? ord c) && (ord c <=? hi).

(** [str.isspace] on one character: TAB..CR, FS..US, SPACE, NEL, NBSP. *)
Definition isspace (c : ascii) : bool :=
  in_range 9 13 c || in_range 28 32 c || (ord c =? 133) || (ord c =? 160).

(** A decimal digit ([\d] of [re], and the digits [int] accepts). *)
Definition isdigit (c : ascii) : bool := in_range 48 57 c.

Definition digit_value (c : ascii) : Z := ord c - 48.

(** [c in s] for a one-character [c]. *)
Definition contains (c : ascii) (s : str) : bool := existsb (Ascii.eqb c) s.

Fixpoint dropwhile (p : ascii -> bool) (s : str) : str :=
  match s with
  | [] => []
  | c :: s' => if p c then dropwhile p s' else s
  end.

Definition lstrip_with (p : ascii -> bool) (s : str) : str := dropwhile p s.

Definition rstrip_with (p : ascii -> bool) (s : str) : str :=
  rev (dropwhile p (rev s)).

Definition strip_with (p : ascii -> bool) (s : str) : str :=
  rstrip_with p (lstrip_with p s).

(** [s.strip()] *)
Definition strip (s : str) : str := strip_with isspace s.

(** [s.split(sep)] for a one-character separator. *)
Fixpoint split (sep : ascii) (s : str) : list str :=
  match s with
  | [] => [[]]
  | c :: s' =>
      if Ascii.eqb c sep then [] :: split sep s'
      else match split sep s' with
           | p :: ps => (c :: p) :: ps
           | [] => [[c]]
           end
  end.

(** ** Exceptions *)

Inductive exn : Type := ValueError | IndexError | OverflowError.

Inductive result (A : Type) : Type :=
| Ok (a : A)
| Raise (e : exn).

Arguments Ok {A} a.
Arguments Raise {A} e.

Definition bind {A B : Type} (r : result A) (f : A -> result B) : result B :=
  match r with
  | Ok a => f a
  | Raise e => Raise e
  end.

Notation "x <- r ;; k" := (bind r (fun x => k))
  (at level 61, r at next level, right associativity).

(** [s[-1]] *)
Definition last_char (s : str) : result ascii :=
  match rev s with
  | [] => Raise IndexError
  | c :: _ => Ok c
  end.

(** [s[:-1]] *)
Definition but_last (s : str) : str := removelast s.

(** ** [int(s)] in base 10 *)

(** The characters [int] skips at both ends: every [isspace] character
    except FS..US.  The cap on the number of digits of recent CPython
    versions ([sys.set_int_max_str_digits], beyond which [int] raises
    [ValueError]) is left out. *)
Definition int_space (c : ascii) : bool :=
  in_range 9 13 c || (ord c =? 32) || (ord c =? 133) || (ord c =? 160).

(** Digits with single underscores between them; [us] tells that the
    previous character was an underscore. *)
Fixpoint int_digits (us : bool) (acc : Z) (s : str) : option Z :=
  match s with
  | [] => if us then None else Some acc
  | c :: s' =>
      if isdigit c then int_digits false (acc * 10 + digit_value c) s'
      else if Ascii.eqb c "_" then
             if us then None else int_digits true acc s'
           else None
  end.

Definition int_unsigned (s : str) : option Z :=
  match s with
  | c :: s' => if isdigit c then int_digits false (digit_value c) s' else None
  | [] => None
  end.

Definition int_signed (s : str) : option Z :=
  match s with
  | c :: s' =>
      if Ascii.eqb c "-" then option_map Z.opp (int_unsigned s')
      else if Ascii.eqb c "+" then int_unsigned s'
      else int_unsigned s
  | [] => None
  end.

Definition int (s : str) : result Z :=
  match int_signed (strip_with int_space s) with
  | Some v => Ok v
  | None => Raise ValueError
  end.

(** ** [datetime.timedelta] *)

(** A normalised [timedelta]: [0 <= seconds < 86400],
    [0 <= microseconds < 1000000]. *)
Record timedelta : Type := mk_timedelta {
  days : Z;
  seconds : Z;
  microseconds : Z
}.

(** [datetime.timedelta(hours=hours, minutes=minutes)] on integers. *)
Definition timedelta_new (hours minutes : Z) : result timedelta :=
  let secs := minutes * 60 + hours * 3600 in
  let d := secs / 86400 in
  let s := secs mod 86400 in
  if Z.abs d >? 999999999 then Raise OverflowError
  else Ok (mk_timedelta d s 0).

(** [td.total_seconds()], an integer here since the script builds its
    [timedelta] values from whole hours and minutes. *)
Definition total_seconds (td : timedelta) : Z := days td * 86400 + seconds td.

(** ** [datetime.datetime] (naive) *)

Record datetime : Type := mk_datetime {
  year : Z;
  month : Z;
  day : Z;
  hour : Z;
  minute : Z;
  second : Z;
  microsecond : Z
}.

Definition is_leap (y : Z) : bool :=
  (y mod 4 =? 0) && (negb (y mod 100 =? 0) || (y mod 400 =? 0)).

Definition DAYS_IN_MONTH (m : Z) : Z :=
  match m with
  | 1 => 31 | 2 => 28 | 3 => 31 | 4 => 30 | 5 => 31 | 6 => 30
  | 7 => 31 | 8 => 31 | 9 => 30 | 10 => 31 | 11 => 30 | 12 => 31
  | _ => -1
  end.

Definition DAYS_BEFORE_MONTH (m : Z) : Z :=
  match m with
  | 1 => 0 | 2 => 31 | 3 => 59 | 4 => 90 | 5 => 120 | 6 => 151
  | 7 => 181 | 8 => 212 | 9 => 243 | 10 => 273 | 11 => 304 | 12 => 334
  | _ => -1
  end.

Definition days_in_month (y m : Z) : Z :=
  if (m =? 2) && is_leap y then 29 else DAYS_IN_MONTH m.

Definition days_before_year (y : Z) : Z :=
  let y := y - 1 in y * 365 + y / 4 - y / 100 + y / 400.

Definition days_before_month (y m : Z) : Z :=
  DAYS_BEFORE_MONTH m + (if (m >? 2) && is_leap y then 1 else 0).

Definition ymd2ord (y m d : Z) : Z :=
  days_before_year y + days_before_month y m + d.

Definition MAXORDINAL : Z := 3652059.

Definition ord2ymd (n : Z) : Z * Z * Z :=
  let n := n - 1 in
  let n400 := n / 146097 in
  let n := n mod 146097 in
  let y := n400 * 400 + 1 in
  let n100 := n / 36524 in
  let n := n mod 36524 in
  let n4 := n / 1461 in
  let n := n mod 1461 in
  let n1 := n / 365 in
  let n := n mod 365 in
  let y := y + n100 * 100 + n4 * 4 + n1 in
  if (n1 =? 4) || (n100 =? 4) then (y - 1, 12, 31)
  else
    let leapyear := (n1 =? 3) && (negb (n4 =? 24) || (n100 =? 3)) in
    let m := Z.shiftr (n + 50) 5 in
    let preceding :=
      DAYS_BEFORE_MONTH m + (if (m >? 2) && leapyear then 1 else 0) in
    if preceding >? n then
      let m := m - 1 in
      let preceding :=
        preceding - (DAYS_IN_MONTH m + (if (m =? 2) && leapyear then 1 else 0)) in
      (y, m, n - preceding + 1)
    else (y, m, n - preceding + 1).

(** The constructor's range checks. *)
Definition datetime_new (y m d H M S us : Z) : result datetime :=
  if (1 <=? y) && (y <=? 9999) && (1 <=? m) && (m <=? 12)
     && (1 <=? d) && (d <=? days_in_month y m)
     && (0 <=? H) && (H <=? 23) && (0 <=? M) && (M <=? 59)
     && (0 <=? S) && (S <=? 59) && (0 <=? us) && (us <=? 999999)
  then Ok (mk_datetime y m d H M S us)
  else Raise ValueError.

Definition toordinal (dt : datetime) : Z := ymd2ord (year dt) (month dt) (day dt).

(** [dt + td] *)
Definition datetime_add (dt : datetime) (td : timedelta) : result datetime :=
  let us := microsecond dt + microseconds td in
  let s := hour dt * 3600 + minute dt * 60 + second dt + seconds td
           + us / 1000000 in
  let d := toordinal dt + days td + s / 86400 in
  let s := s mod 86400 in
  if (0 <? d) && (d <=? MAXORDINAL) then
    let '(y, m, dd) := ord2ymd d in
    Ok (mk_datetime y m dd (s / 3600) (s mod 3600 / 60) (s mod 3600 mod 60)
          (us mod 1000000))
  else Raise OverflowError.

(** Comparison of naive values: the fields, lexicographically. *)
Definition fields (dt : datetime) : list Z :=
  [year dt; month dt; day dt; hour dt; minute dt; second dt; microsecond dt].

Fixpoint lex_lt (a b : list Z) : bool :=
  match a, b with
  | x :: a', y :: b' => (x <? y) || ((x =? y) && lex_lt a' b')
  | [], _ :: _ => true
  | _, [] => false
  end.

(** [a < b] *)
Definition datetime_lt (a b : datetime) : bool := lex_lt (fields a) (fields b).

(** [a <= b] *)
Definition datetime_le (a b : datetime) : bool := negb (datetime_lt b a).

(** ** [datetime.datetime.strptime]

    [_strptime] turns the format into a regular expression, matches it
    (ignoring case) against a prefix of the data, rejects data that is
    left over, and builds the [datetime] from the named groups.  The
    expression of a format is a sequence of literal characters, [\s+] for
    each run of white space, and one group per directive; a group is an
    ordered choice between fixed-length sequences of character classes.
    The directives the script uses are modelled: [%Y %m %d %H %M]. *)

Inductive cclass : Type :=
| CDigit                       (* \d *)
| CRange (lo hi : ascii)       (* [lo-hi] *)
| CChar (c : ascii).           (* a literal character *)

Inductive token : Type :=
| TLit (c : ascii)
| TSpaces
| TGroup (name : ascii) (alts : list (list cclass)).

Definition lower (c : ascii) : ascii :=
  if in_range 65 90 c then ascii_of_N (N_of_ascii c + 32) else c.

(** Equality of characters under [re.IGNORECASE]. *)
Definition eqb_nocase (a b : ascii) : bool := Ascii.eqb (lower a) (lower b).

Definition cclass_match (k : cclass) (c : ascii) : bool :=
  match k with
  | CDigit => isdigit c
  | CRange lo hi => in_range (ord lo) (ord hi) c
  | CChar x => eqb_nocase x c
  end.

(** The group of a directive, as [TimeRE.__init__] defines it. *)
Definition directive (d : ascii) : option (list (list cclass)) :=
  if Ascii.eqb d "Y" then
    Some [[CDigit; CDigit; CDigit; CDigit]]
  else if Ascii.eqb d "m" then
    Some [[CChar "1"; CRange "0" "2"]; [CChar "0"; CRange "1" "9"];
          [CRange "1" "9"]]
  else if Ascii.eqb d "d" then
    Some [[CChar "3"; CRange "0" "1"]; [CRange "1" "2"; CDigit];
          [CChar "0"; CRange "1" "9"]; [CRange "1" "9"];
          [CChar " "; CRange "1" "9"]]
  else if Ascii.eqb d "H" then
    Some [[CChar "2"; CRange "0" "3"]; [CRange "0" "1"; CDigit]; [CDigit]]
  else if Ascii.eqb d "M" then
    Some [[CRange "0" "5"; CDigit]; [CDigit]]
  else None.

(** [TimeRE.pattern]; [sp] tells that the previous character of the
    format was white space (a run of white space gives one [\s+]). *)
Fixpoint pattern (sp : bool) (format : str) : option (list token) :=
  match format with
  | [] => Some []
  | c :: rest =>
      if Ascii.eqb c "%" then
        match rest with
        | d :: rest' =>
            match directive d, pattern false rest' with
            | Some alts, Some ts => Some (TGroup d alts :: ts)
            | _, _ => None
            end
        | [] => None
        end
      else if isspace c then
        match pattern true rest with
        | Some ts => Some (if sp then ts else TSpaces :: ts)
        | None => None
        end
      else
        match pattern false rest with
        | Some ts => Some (TLit c :: ts)
        | None => None
        end
  end.

(** The text of the groups matched so far, latest first. *)
Definition groups := list (ascii * str).

(** A fixed-length sequence of classes against a prefix of [s]:
    the matched text and the rest. *)
Fixpoint match_classes (ks : list cclass) (s : str) : option (str * str) :=
  match ks with
  | [] => Some ([], s)
  | k :: ks' =>
      match s with
      | c :: s' =>
          if cclass_match k c then
            match match_classes ks' s' with
            | Some (m, r) => Some (c :: m, r)
            | None => None
            end
          else None
      | [] => None
      end
  end.

Section Backtracking.
(** What follows in the expression. *)
Variable k : str -> groups -> option (groups * str).

(** Ordered choice: the first alternative after which the rest of the
    expression matches. *)
Fixpoint first_alt (name : ascii) (alts : list (list cclass))
    (s : str) (g : groups) : option (groups * str) :=
  match alts with
  | [] => None
  | a :: alts' =>
      match match_classes a s with
      | Some (m, r) =>
          match k r ((name, m) :: g) with
          | Some res => Some res
          | None => first_alt name alts' s g
          end
      | None => first_alt name alts' s g
      end
  end.

(** [\s+], greedy. *)
Fixpoint spaces (s : str) (g : groups) : option (groups * str) :=
  match s with
  | c :: s' =>
      if isspace c then
        match spaces s' g with
        | Some res => Some res
        | None => k s' g
        end
      else None
  | [] => None
  end.
End Backtracking.

(** [re.match]: the groups and the unmatched rest of the data. *)
Fixpoint match_tokens (ts : list token) : str -> groups -> option (groups * str) :=
  match ts with
  | [] => fun s g => Some (g, s)
  | t :: ts' =>
      let k := match_tokens ts' in
      match t with
      | TLit c =>
          fun s g =>
            match s with
            | x :: s' => if eqb_nocase c x then k s' g else None
            | [] => None
            end
      | TSpaces => spaces k
      | TGroup name alts => first_alt k name alts
      end
  end.

Fixpoint group (name : ascii) (g : groups) : option str :=
  match g with
  | [] => None
  | (n, m) :: g' => if Ascii.eqb n name then Some m else group name g'
  end.

(** The integer of a group, or the default of a directive that the
    format does not have. *)
Definition group_int (name : ascii) (default : Z) (g : groups) : result Z :=
  match group name g with
  | Some m => int m
  | None => Ok default
  end.

Definition strptime (data_string format : str) : result datetime :=
  match pattern false format with
  | None => Raise ValueError
  | Some ts =>
      match match_tokens ts data_string [] with
      | None => Raise ValueError
      | Some (g, []) =>
          y <- group_int "Y" 1900 g ;;
          m <- group_int "m" 1 g ;;
          d <- group_int "d" 1 g ;;
          H <- group_int "H" 0 g ;;
          M <- group_int "M" 0 g ;;
          datetime_new y m d H M 0 0
      | Some (_, _ :: _) => Raise ValueError
      end
  end.

(** ** The script *)

Definition parse_date (date_str : str) : result (datetime * bool) :=
  let date_str := strip date_str in
  if contains "T" date_str || contains " " date_str then
    let time_included := true in
    let parse_format :=
      if contains "T" date_str then py "%Y-%m-%dT%H:%M"
      else py "%Y-%m-%d %H:%M" in
    dt <- strptime date_str parse_format ;; Ok (dt, time_included)
  else
    let time_included := false in
    let parse_format := py "%Y-%m-%d" in
    dt <- strptime date_str parse_format ;; Ok (dt, time_included).

Definition parse_duration (duration_str : str) : result timedelta :=
  let duration_str := strip duration_str in
  if contains ":" duration_str then
    match split ":" duration_str with
    | [hours; minutes] =>
        h <- int hours ;; m <- int minutes ;; timedelta_new h m
    | _ => Raise ValueError
    end
  else
    c <- last_char duration_str ;;
    if Ascii.eqb c "m" then
      m <- int (but_last duration_str) ;; timedelta_new 0 m
    else if Ascii.eqb c "h" then
      h <- int (but_last duration_str) ;; timedelta_new h 0
    else Raise ValueError.

Record EKCalendar : Type := mk_calendar {
  cal_title : str;
  cal_type : Z
}.

(** The calendars of the event store, in the order the store lists them. *)
Definition EKEventStore := list EKCalendar.

Fixpoint str_eqb (a b : str) : bool :=
  match a, b with
  | [], [] => true
  | x :: a', y :: b' => Ascii.eqb x y && str_eqb a' b'
  | _, _ => false
  end.

Definition resolve_calendar_by_name (store : EKEventStore) (calendar_name : str)
  : option EKCalendar :=
  find (fun cal => str_eqb (cal_title cal) calendar_name) store.

(** The command line after [argparse]. *)
Record args : Type := mk_args {
  end_date : str;
  duration : str;
  calendar : str;
  date : str;
  title : str
}.

(** The messages before [exit(1)]. *)
Inductive diagnostic : Type :=
| CalendarNotFound                (* Couldn't find a calendar with the name *)
| InvalidDateFormat               (* Error parsing date *)
| InvalidEndDateFormat            (* Error parsing end date *)
| InvalidDurationFormat           (* Error parsing duration *)
| InconsistentTimeSpecification   (* Start time was included but end time was not *)
| EndBeforeStart.                 (* End date is before start date *)

(** How a run ends: [exit(1)] after a message, an exception nothing
    catches, or the call of [create_event] with its arguments. *)
Inductive outcome : Type :=
| Exit1 (d : diagnostic)
| Uncaught (e : exn)
| CreateEvent (cal : EKCalendar) (is_all_day_event : bool)
    (start_dt end_dt : datetime) (title : str).

Inductive step (A : Type) : Type :=
| Continue (a : A)
| Stop (o : outcome).

Arguments Continue {A} a.
Arguments Stop {A} o.

(** [try: ... except ValueError: ...; exit(1)] *)
Definition try_except {A : Type} (r : result A) (d : diagnostic) : step A :=
  match r with
  | Ok a => Continue a
  | Raise ValueError => Stop (Exit1 d)
  | Raise e => Stop (Uncaught e)
  end.

(** A Python string is true when it is not empty. *)
Definition truthy (s : str) : bool :=
  match s with [] => false | _ :: _ => true end.

(** Lines 124-145: the end of the event and [end_date_time_included]. *)
Definition resolve_end (a : args) (start : datetime) (was_time_included : bool)
  : step (datetime * bool) :=
  if truthy (end_date a) then
    try_except (parse_date (end_date a)) InvalidEndDateFormat
  else if truthy (duration a) && was_time_included then
    match try_except (parse_duration (duration a)) InvalidDurationFormat with
    | Stop o => Stop o
    | Continue d =>
        match datetime_add start d with
        | Ok e => Continue (e, true)
        | Raise e => Stop (Uncaught e)
        end
    end
  else Continue (start, false).

(** Lines 147-157: the two checks and the call. *)
Definition validate (home_cal : EKCalendar) (title : str)
    (start : datetime) (was_time_included : bool)
    (end_ : datetime) (end_date_time_included : bool) : outcome :=
  if was_time_included && negb end_date_time_included then
    Exit1 InconsistentTimeSpecification
  else if datetime_lt end_ start then Exit1 EndBeforeStart
  else CreateEvent home_cal (negb was_time_included) start end_ title.

Definition main (store : EKEventStore) (a : args) : outcome :=
  match resolve_calendar_by_name store (calendar a) with
  | None => Exit1 CalendarNotFound
  | Some home_cal =>
      match try_except (parse_date (date a)) InvalidDateFormat with
      | Stop o => o
      | Continue (start, was_time_included) =>
          match resolve_end a start was_time_included with
          | Stop o => o
          | Continue (end_, end_date_time_included) =>
              validate home_cal (title a) start was_time_included
                end_ end_date_time_included
          end
      end
  end.

(** ** Date strings

    The text [YYYY-MM-DD] of a date, zero-padded as [date.isoformat]
    writes it: the strings the date-only format is for. *)

Definition digit_char (n : Z) : ascii := ascii_of_N (Z.to_N (48 + n)).

Definition two_digits (n : Z) : str :=
  [digit_char (n / 10); digit_char (n mod 10)].

Definition four_digits (n : Z) : str :=
  [digit_char (n / 1000); digit_char (n / 100 mod 10);
   digit_char (n / 10 mod 10); digit_char (n mod 10)].

Definition date_string (y m d : Z) : str :=
  four_digits y ++ "-"%char :: two_digits m ++ "-"%char :: two_digits d.

(** [HH:MM], and a date and a time around a separator. *)
Definition time_string (H M : Z) : str :=
  two_digits H ++ ":"%char :: two_digits M.

Definition datetime_string (sep : ascii) (y m d H M : Z) : str :=
  date_string y m d ++ sep :: time_string H M.

(** The text of the groups after a match of a date and a time. *)
Definition timed_groups (y m d H M : Z) : groups :=
  [("M"%char, two_digits M); ("H"%char, two_digits H);
   ("d"%char, two_digits d); ("m"%char, two_digits m);
   ("Y"%char, four_digits y)].

(** The format has no directive [name]. *)
Definition no_group (name : ascii) (ts : list token) : bool :=
  forallb (fun t => match t with
                    | TGroup n _ => negb (Ascii.eqb n name)
                    | _ => true
                    end) ts.

(** ** Sample runs *)

Definition args_timed_1h : args :=
  mk_args [] (py "1h") (py "Home") (py "2024-06-01T09:00") (py "Standup").

Definition store_home : EKEventStore :=
  [mk_calendar (py "Work") 1; mk_calendar (py "Home") 0].

Definition args_timed_dateonly_end : args :=
  mk_args (py "2024-06-01") [] (py "Home") (py "2024-06-01T09:00") (py "Standup").

Definition args_timed_alone : args :=
  mk_args [] [] (py "Home") (py "2024-06-01T09:00") (py "Standup").

Definition args_timed_earlier_dateonly_end : args :=
  mk_args (py "2024-06-01") [] (py "Home") (py "2024-06-02T09:00") (py "Standup").

Definition args_all_day : args :=
  mk_args [] [] (py "Home") (py "2024-06-01") (py "Holiday").

Definition args_dateonly_earlier_end : args :=
  mk_args (py "2024-06-01") [] (py "Home") (py "2024-06-02") (py "Holiday").

Definition args_blank_duration : args :=
  mk_args [] (py " ") (py "Home") (py "2024-06-01T09:00") (py "Standup").

(** ** Well-formed values *)

(** What the constructor of [datetime.datetime] accepts. *)
Definition valid_datetime (dt : datetime) : Prop :=
  1 <= year dt <= 9999 /\ 1 <= month dt <= 12 /\
  1 <= day dt <= days_in_month (year dt) (month dt) /\
  0 <= hour dt <= 23 /\ 0 <= minute dt <= 59 /\
  0 <= second dt <= 59 /\ 0 <= microsecond dt <= 999999.

(** Whole seconds from 0001-01-01T00:00:00 on the naive time line, as
    [(dt - datetime.min) // timedelta(seconds=1)] counts them. *)
Definition naive_seconds (dt : datetime) : Z :=
  (toordinal dt - 1) * 86400 + hour dt * 3600 + minute dt * 60 + second dt.

Definition args_unknown_calendar : args :=
  mk_args (py "not a date") (py "bogus") (py "Holidays") (py "also not a date")
    (py "Standup").

Definition args_bad_date : args :=
  mk_args (py "not a date") (py "bogus") (py "Home") (py "2024-13-01")
    (py "Standup").


Definition args_dateonly_timed_end : args :=
  mk_args (py "2024-06-01T18:30") (py "bogus") (py "Home") (py "2024-06-01")
    (py "Open day").

Definition args_dateonly_bad_duration : args :=
  mk_args [] (py "bogus") (py "Home") (py "2024-06-01") (py "Open day").

(** * Properties *)

Example int_examples :
  int (py " 12 ") = Ok 12 /\ int (py "-5") = Ok (-5) /\ int (py "+5") = Ok 5 /\
  int (py "1_000") = Ok 1000 /\ int (py "00") = Ok 0 /\
  int (py "") = Raise ValueError /\ int (py "1__0") = Raise ValueError /\
  int (py "_1") = Raise ValueError /\ int (py "1_") = Raise ValueError /\
  int (py "- 5") = Raise ValueError /\ int (py "5 5") = Raise ValueError /\
  int (py "0x10") = Raise ValueError /\ int (py "1.5") = Raise ValueError.
Proof. repeat split. Qed.

Example strptime_examples :
  strptime (py "2024-06- 1") (py "%Y-%m-%d") = Ok (mk_datetime 2024 6 1 0 0 0 0) /\
  strptime (py "2024-06-01t09:00") (py "%Y-%m-%dT%H:%M")
    = Ok (mk_datetime 2024 6 1 9 0 0 0) /\
  strptime (py "2024-06-01 9:5") (py "%Y-%m-%d %H:%M")
    = Ok (mk_datetime 2024 6 1 9 5 0 0) /\
  strptime (py "0000-01-01") (py "%Y-%m-%d") = Raise ValueError /\
  strptime (py "2024-02-30") (py "%Y-%m-%d") = Raise ValueError /\
  strptime (py "2024-6-1") (py "%Y-%m-%d") = Ok (mk_datetime 2024 6 1 0 0 0 0) /\
  strptime (py "2024-06-011") (py "%Y-%m-%d") = Raise ValueError /\
  strptime (py "2024-06-01 24:00") (py "%Y-%m-%d %H:%M") = Raise ValueError /\
  strptime (py "2024-06- 1 09:00") (py "%Y-%m-%d %H:%M")
    = Ok (mk_datetime 2024 6 1 9 0 0 0) /\
  strptime (py "2024-06-01 09:00") (py "%Y-%m-%dT%H:%M") = Raise ValueError.
Proof. repeat split. Qed.

Example parse_duration_examples :
  parse_duration (py "1:30") = Ok (mk_timedelta 0 5400 0) /\
  parse_duration (py "90m") = Ok (mk_timedelta 0 5400 0) /\
  parse_duration (py "2h") = Ok (mk_timedelta 0 7200 0) /\
  parse_duration (py "-5h") = Ok (mk_timedelta (-1) 68400 0) /\
  parse_duration (py "bogus") = Raise ValueError /\
  parse_duration (py "1:2:3") = Raise ValueError /\
  parse_duration (py " ") = Raise IndexError /\
  parse_duration (py "24000000000h") = Raise OverflowError.
Proof. repeat split. Qed.

Example datetime_add_examples :
  datetime_add (mk_datetime 2024 6 1 9 0 0 0) (mk_timedelta 0 3600 0)
    = Ok (mk_datetime 2024 6 1 10 0 0 0) /\
  datetime_add (mk_datetime 2024 2 28 23 30 0 0) (mk_timedelta 0 3600 0)
    = Ok (mk_datetime 2024 2 29 0 30 0 0) /\
  datetime_add (mk_datetime 2023 12 31 23 30 0 0) (mk_timedelta 365 3600 0)
    = Ok (mk_datetime 2024 12 31 0 30 0 0) /\
  datetime_add (mk_datetime 9999 12 31 23 0 0 0) (mk_timedelta 0 3600 0)
    = Raise OverflowError /\
  datetime_add (mk_datetime 1 1 1 0 0 0 0) (mk_timedelta (-1) 82800 0)
    = Raise OverflowError.
Proof. repeat split. Qed.

(** ** The order of naive values *)

Lemma lex_lt_irrefl (a : list Z) : lex_lt a a = false.
Proof.
  induction a as [|x a IH]; simpl; [reflexivity|].
  rewrite Z.ltb_irrefl, Z.eqb_refl, IH. reflexivity.
Qed.

Lemma datetime_lt_irrefl (a : datetime) : datetime_lt a a = false.
Proof. apply lex_lt_irrefl. Qed.

Lemma datetime_le_refl (a : datetime) : datetime_le a a = true.
Proof. unfold datetime_le. now rewrite datetime_lt_irrefl. Qed.

Lemma lex_lt_asym (a : list Z) : forall b,
  lex_lt a b = true -> lex_lt b a = false.
Proof.
  induction a as [|x a IH]; intros [|y b]; simpl; try congruence.
  intros H. apply orb_true_iff in H. apply orb_false_iff.
  destruct H as [H|H].
  - apply Z.ltb_lt in H. split; [apply Z.ltb_ge; lia|].
    apply andb_false_iff. left. apply Z.eqb_neq. lia.
  - apply andb_true_iff in H. destruct H as [E H]. apply Z.eqb_eq in E.
    subst y. split; [apply Z.ltb_irrefl|]. rewrite (IH _ H).
    apply andb_false_r.
Qed.

Lemma lex_lt_trans (a : list Z) : forall b c,
  lex_lt a b = true -> lex_lt b c = true -> lex_lt a c = true.
Proof.
  induction a as [|x a IH]; intros [|y b] [|z c]; simpl; try congruence.
  intros H1 H2. apply orb_true_iff in H1, H2. apply orb_true_iff.
  destruct H1 as [H1|H1], H2 as [H2|H2];
    try (apply andb_true_iff in H1; destruct H1 as [E1 H1];
         apply Z.eqb_eq in E1);
    try (apply andb_true_iff in H2; destruct H2 as [E2 H2];
         apply Z.eqb_eq in E2);
    try apply Z.ltb_lt in H1; try apply Z.ltb_lt in H2.
  - left. apply Z.ltb_lt. lia.
  - left. apply Z.ltb_lt. lia.
  - left. apply Z.ltb_lt. lia.
  - right. subst. rewrite Z.eqb_refl. simpl. eauto.
Qed.

Lemma lex_lt_total (a : list Z) : forall b,
  List.length a = List.length b -> lex_lt a b = true \/ a = b \/ lex_lt b a = true.
Proof.
  induction a as [|x a IH]; intros [|y b]; simpl; try discriminate; auto.
  intros H. injection H as H.
  destruct (Z.lt_total x y) as [L|[E|L]].
  - left. apply Z.ltb_lt in L. now rewrite L.
  - subst y. rewrite Z.ltb_irrefl, Z.eqb_refl. simpl.
    destruct (IH b H) as [?|[->|?]]; auto.
  - right. right. apply Z.ltb_lt in L. now rewrite L.
Qed.

Lemma fields_inj (a b : datetime) : fields a = fields b -> a = b.
Proof. destruct a, b. unfold fields. simpl. congruence. Qed.

(** [a <= b] is [a < b or a == b]. *)
Lemma datetime_le_iff (a b : datetime) :
  datetime_le a b = true <-> datetime_lt a b = true \/ a = b.
Proof.
  unfold datetime_le, datetime_lt. rewrite negb_true_iff. split.
  - intros H. destruct (lex_lt_total (fields a) (fields b) eq_refl)
      as [?|[E|L]]; auto; [right; now apply fields_inj|congruence].
  - intros [H| ->]; [now apply lex_lt_asym|apply lex_lt_irrefl].
Qed.

Lemma datetime_lt_trans (a b c : datetime) :
  datetime_lt a b = true -> datetime_lt b c = true -> datetime_lt a c = true.
Proof. apply lex_lt_trans. Qed.

(** ** End resolution and validation *)

Lemma truthy_false (s : str) : truthy s = false <-> s = [].
Proof. destruct s; simpl; split; congruence. Qed.

Lemma truthy_true (s : str) : truthy s = true <-> s <> [].
Proof. destruct s; simpl; split; congruence. Qed.

(** What [main] does once the calendar is found and the start parsed. *)
Lemma main_after_start store a home_cal start wti :
  resolve_calendar_by_name store (calendar a) = Some home_cal ->
  parse_date (date a) = Ok (start, wti) ->
  main store a =
    match resolve_end a start wti with
    | Stop o => o
    | Continue (end_, eti) => validate home_cal (title a) start wti end_ eti
    end.
Proof. intros Hc Hs. unfold main. rewrite Hc, Hs. reflexivity. Qed.

(** A run that calls [create_event] went through every stage. *)
Lemma main_create_event_inv store a c b s e t :
  main store a = CreateEvent c b s e t ->
  exists wti eti,
    resolve_calendar_by_name store (calendar a) = Some c /\
    parse_date (date a) = Ok (s, wti) /\
    resolve_end a s wti = Continue (e, eti) /\
    validate c (title a) s wti e eti = CreateEvent c b s e t.
Proof.
  unfold main.
  destruct (resolve_calendar_by_name store (calendar a)) as [cal|] eqn:Hc;
    [|discriminate].
  destruct (parse_date (date a)) as [[start wti]|[]] eqn:Hs; simpl;
    try discriminate.
  destruct (resolve_end a start wti) as [[end_ eti]|o] eqn:Hr.
  - intros H. assert (H' := H). unfold validate in H'.
    destruct (wti && negb eti); [discriminate|].
    destruct (datetime_lt end_ start); [discriminate|].
    injection H' as -> _ -> -> _.
    exists wti, eti. auto.
  - intros ->.
    unfold resolve_end in Hr.
    destruct (truthy (end_date a)).
    + destruct (parse_date (end_date a)) as [?|[]]; discriminate.
    + destruct (truthy (duration a) && wti); [|discriminate].
      destruct (parse_duration (duration a)) as [d|[]]; simpl in Hr;
        try discriminate.
      destruct (datetime_add start d); discriminate.
Qed.

(** C1. End resolution follows a strict precedence.  A supplied end-date
    string is parsed by [parse_date] and gives the end and its flag (a
    [ValueError] ends the run).  Otherwise a supplied duration with a
    timed start gives [end = start + parse_duration(duration)] and the
    flag true.  Otherwise [end = start] and the flag is false; a
    duration next to a date-only start is not looked at, whatever it
    holds. *)
Theorem end_resolution_precedence (a : args) (start : datetime) (wti : bool) :
  (end_date a <> [] ->
     resolve_end a start wti
       = try_except (parse_date (end_date a)) InvalidEndDateFormat) /\
  (end_date a = [] -> duration a <> [] -> wti = true ->
     resolve_end a start wti
       = match parse_duration (duration a) with
         | Ok d =>
             match datetime_add start d with
             | Ok e => Continue (e, true)
             | Raise e => Stop (Uncaught e)
             end
         | Raise ValueError => Stop (Exit1 InvalidDurationFormat)
         | Raise e => Stop (Uncaught e)
         end) /\
  (end_date a = [] -> duration a = [] \/ wti = false ->
     resolve_end a start wti = Continue (start, false)) /\
  (forall d : str,
     resolve_end (mk_args [] d (calendar a) (date a) (title a)) start false
       = Continue (start, false)).
Proof.
  unfold resolve_end. repeat split.
  - intros H. apply truthy_true in H. now rewrite H.
  - intros He Hd ->. apply truthy_true in Hd. rewrite He, Hd. simpl.
    destruct (parse_duration (duration a)) as [d|[]]; reflexivity.
  - intros He [Hd| ->]; rewrite He; simpl.
    + now rewrite Hd.
    + now rewrite andb_false_r.
  - intros d. simpl. now rewrite andb_false_r.
Qed.

Lemma end_resolution_precedence_witness :
  resolve_end args_timed_1h (mk_datetime 2024 6 1 9 0 0 0) true
    = Continue (mk_datetime 2024 6 1 10 0 0 0, true).
Proof.
  destruct (end_resolution_precedence args_timed_1h
              (mk_datetime 2024 6 1 9 0 0 0) true) as [_ [H _]].
  rewrite H; [reflexivity | reflexivity | discriminate | reflexivity].
Defined.

(** C2. When the start was parsed with a time of day, the run ends with
    "Start time was included but end time was not" exactly when the
    resolved [end_date_time_included] is false; when the start had no
    time of day this check never fails. *)
Theorem time_consistency_check store a home_cal start wti end_ eti :
  resolve_calendar_by_name store (calendar a) = Some home_cal ->
  parse_date (date a) = Ok (start, wti) ->
  resolve_end a start wti = Continue (end_, eti) ->
  (wti = true ->
     (main store a = Exit1 InconsistentTimeSpecification <-> eti = false)) /\
  (wti = false -> main store a <> Exit1 InconsistentTimeSpecification).
Proof.
  intros Hc Hs Hr. rewrite (main_after_start _ _ _ _ _ Hc Hs), Hr.
  unfold validate. split.
  - intros ->. destruct eti; simpl.
    + split; [|discriminate]. destruct (datetime_lt end_ start); discriminate.
    + split; reflexivity.
  - intros ->. simpl. destruct (datetime_lt end_ start); discriminate.
Qed.

Lemma time_consistency_check_witness :
  main store_home args_timed_dateonly_end = Exit1 InconsistentTimeSpecification.
Proof.
  apply (time_consistency_check store_home args_timed_dateonly_end
           (mk_calendar (py "Home") 0) (mk_datetime 2024 6 1 9 0 0 0) true
           (mk_datetime 2024 6 1 0 0 0 0) false);
    reflexivity.
Defined.

(** C5. A start with a time of day and neither an end date nor a
    duration: the run ends with "Start time was included but end time
    was not", and never calls [create_event]. *)
Theorem timed_start_alone_rejected store a start :
  parse_date (date a) = Ok (start, true) ->
  end_date a = [] ->
  duration a = [] ->
  (forall home_cal,
     resolve_calendar_by_name store (calendar a) = Some home_cal ->
     main store a = Exit1 InconsistentTimeSpecification) /\
  (forall c b s e t, main store a <> CreateEvent c b s e t).
Proof.
  intros Hs He Hd.
  assert (Hr : resolve_end a start true = Continue (start, false)).
  { unfold resolve_end. now rewrite He, Hd. }
  split.
  - intros home_cal Hc. rewrite (main_after_start _ _ _ _ _ Hc Hs), Hr.
    reflexivity.
  - intros c b s e t H.
    destruct (main_create_event_inv _ _ _ _ _ _ _ H)
      as (wti & eti & _ & Hs' & Hr' & Hv).
    rewrite Hs in Hs'. injection Hs' as <- <-.
    rewrite Hr in Hr'. injection Hr' as <- <-.
    discriminate.
Qed.

Lemma timed_start_alone_rejected_witness :
  main store_home args_timed_alone = Exit1 InconsistentTimeSpecification.
Proof.
  destruct (timed_start_alone_rejected store_home args_timed_alone
              (mk_datetime 2024 6 1 9 0 0 0) eq_refl eq_refl eq_refl)
    as [H _].
  apply (H (mk_calendar (py "Home") 0)). reflexivity.
Defined.

(** C6. Once the time-consistency check has passed, the run
    ends with "End date is before start date" exactly when the resolved
    end is strictly earlier than the start; an end equal to the start is
    accepted; and every call of [create_event] has [start <= end]. *)
Theorem end_before_start_check store a :
  (forall home_cal start wti end_ eti,
     resolve_calendar_by_name store (calendar a) = Some home_cal ->
     parse_date (date a) = Ok (start, wti) ->
     resolve_end a start wti = Continue (end_, eti) ->
     (wti = true -> eti = true) ->
     (main store a = Exit1 EndBeforeStart <-> datetime_lt end_ start = true) /\
     (end_ = start ->
      main store a = CreateEvent home_cal (negb wti) start start (title a))) /\
  (forall c b s e t,
     main store a = CreateEvent c b s e t -> datetime_le s e = true).
Proof.
  split.
  - intros home_cal start wti end_ eti Hc Hs Hr Hcons.
    rewrite (main_after_start _ _ _ _ _ Hc Hs), Hr. unfold validate.
    assert (Hchk : wti && negb eti = false).
    { destruct wti; [|reflexivity]. now rewrite (Hcons eq_refl). }
    rewrite Hchk. split.
    + destruct (datetime_lt end_ start); split; congruence.
    + intros ->. now rewrite datetime_lt_irrefl.
  - intros c b s e t H.
    destruct (main_create_event_inv _ _ _ _ _ _ _ H)
      as (wti & eti & _ & _ & _ & Hv).
    unfold validate in Hv. unfold datetime_le.
    destruct (wti && negb eti); [discriminate|].
    destruct (datetime_lt e s); [discriminate|reflexivity].
Qed.

(** C6, when the time-consistency check has not passed: a timed start
    with an earlier date-only end has its resolved end strictly before
    the start, and the run ends with the time-consistency message, not
    with "End date is before start date". *)
Lemma end_before_start_masked :
  resolve_calendar_by_name store_home (calendar args_timed_earlier_dateonly_end)
    = Some (mk_calendar (py "Home") 0) /\
  parse_date (date args_timed_earlier_dateonly_end)
    = Ok (mk_datetime 2024 6 2 9 0 0 0, true) /\
  resolve_end args_timed_earlier_dateonly_end (mk_datetime 2024 6 2 9 0 0 0) true
    = Continue (mk_datetime 2024 6 1 0 0 0 0, false) /\
  datetime_lt (mk_datetime 2024 6 1 0 0 0 0) (mk_datetime 2024 6 2 9 0 0 0) = true /\
  main store_home args_timed_earlier_dateonly_end
    = Exit1 InconsistentTimeSpecification.
Proof. repeat split. Qed.

(** C7. In every run that calls [create_event], the all-day flag is the
    negation of the start's time flag: the event is all-day exactly when
    the trimmed start string has neither a [T] nor a space. *)
Theorem all_day_iff_no_start_time store a c b s e t :
  main store a = CreateEvent c b s e t ->
  (exists wti, parse_date (date a) = Ok (s, wti) /\ b = negb wti) /\
  (b = true <->
   contains "T" (strip (date a)) = false /\
   contains " " (strip (date a)) = false).
Proof.
  intros H.
  destruct (main_create_event_inv _ _ _ _ _ _ _ H)
    as (wti & eti & _ & Hs & _ & Hv).
  assert (Hb : b = negb wti).
  { unfold validate in Hv.
    destruct (wti && negb eti); [discriminate|].
    destruct (datetime_lt e s); [discriminate|].
    now injection Hv as <-. }
  split; [exists wti; auto|].
  subst b. unfold parse_date in Hs.
  destruct (contains "T" (strip (date a)) || contains " " (strip (date a)))
    eqn:Hsel.
  - destruct (strptime _ _); [|discriminate]. simpl in Hs.
    injection Hs as _ <-. simpl. split; [discriminate|].
    intros [H1 H2]. rewrite H1, H2 in Hsel. discriminate.
  - destruct (strptime _ _); [|discriminate]. simpl in Hs.
    injection Hs as _ <-. apply orb_false_elim in Hsel. simpl. tauto.
Qed.

Lemma all_day_iff_no_start_time_witness :
  exists wti,
    parse_date (date args_all_day) = Ok (mk_datetime 2024 6 1 0 0 0 0, wti) /\
    true = negb wti.
Proof.
  apply (all_day_iff_no_start_time store_home args_all_day
           (mk_calendar (py "Home") 0) true
           (mk_datetime 2024 6 1 0 0 0 0) (mk_datetime 2024 6 1 0 0 0 0)
           (py "Holiday")).
  reflexivity.
Defined.

Lemma end_before_start_check_witness :
  main store_home args_dateonly_earlier_end = Exit1 EndBeforeStart.
Proof.
  destruct (end_before_start_check store_home args_dateonly_earlier_end)
    as [H _].
  destruct (H (mk_calendar (py "Home") 0) (mk_datetime 2024 6 2 0 0 0 0) false
              (mk_datetime 2024 6 1 0 0 0 0) false
              eq_refl eq_refl eq_refl) as [[_ H'] _].
  - discriminate.
  - apply H'. reflexivity.
Defined.

(** ** Trimming *)

Lemma dropwhile_app (p : ascii -> bool) (l l' : str) :
  dropwhile p (l ++ l') =
    if forallb p l then dropwhile p l' else dropwhile p l ++ l'.
Proof.
  induction l as [|c l IH]; simpl; [reflexivity|].
  destruct (p c); simpl; [exact IH|reflexivity].
Qed.

Lemma dropwhile_all (p : ascii -> bool) (l : str) :
  forallb p l = true -> dropwhile p l = [].
Proof.
  induction l as [|c l IH]; simpl; [reflexivity|].
  destruct (p c); simpl; [exact IH|discriminate].
Qed.

Lemma dropwhile_idem (p : ascii -> bool) (l : str) :
  dropwhile p (dropwhile p l) = dropwhile p l.
Proof.
  induction l as [|c l IH]; simpl; [reflexivity|].
  destruct (p c) eqn:E; [exact IH|]. simpl. now rewrite E.
Qed.

Lemma forallb_rev (p : ascii -> bool) (l : str) :
  forallb p (rev l) = forallb p l.
Proof.
  induction l as [|c l IH]; simpl; [reflexivity|].
  rewrite forallb_app, IH. simpl. rewrite andb_true_r. apply andb_comm.
Qed.

Lemma rstrip_with_idem (p : ascii -> bool) (l : str) :
  rstrip_with p (rstrip_with p l) = rstrip_with p l.
Proof. unfold rstrip_with. now rewrite rev_involutive, dropwhile_idem. Qed.

Lemma rstrip_with_cons (p : ascii -> bool) (c : ascii) (l : str) :
  p c = false -> rstrip_with p (c :: l) = c :: rstrip_with p l.
Proof.
  intros Hc. unfold rstrip_with. simpl. rewrite dropwhile_app.
  destruct (forallb p (rev l)) eqn:E.
  - simpl. rewrite Hc. now rewrite (dropwhile_all _ _ E).
  - now rewrite rev_app_distr.
Qed.

Lemma rstrip_with_app_all (p : ascii -> bool) (l post : str) :
  forallb p post = true -> rstrip_with p (l ++ post) = rstrip_with p l.
Proof.
  intros H. unfold rstrip_with.
  rewrite rev_app_distr, dropwhile_app, forallb_rev, H. reflexivity.
Qed.

Lemma rstrip_with_all (p : ascii -> bool) (l : str) :
  forallb p l = true -> rstrip_with p l = [].
Proof.
  intros H. unfold rstrip_with.
  rewrite dropwhile_all; [reflexivity|]. now rewrite forallb_rev.
Qed.

Lemma strip_with_idem (p : ascii -> bool) (s : str) :
  strip_with p (strip_with p s) = strip_with p s.
Proof.
  unfold strip_with, lstrip_with.
  assert (H : dropwhile p (rstrip_with p (dropwhile p s))
              = rstrip_with p (dropwhile p s)).
  { induction s as [|c s IH]; simpl; [reflexivity|].
    destruct (p c) eqn:E; [exact IH|].
    rewrite (rstrip_with_cons _ _ _ E). simpl. now rewrite E. }
  rewrite H. apply rstrip_with_idem.
Qed.

Lemma strip_with_padded (p : ascii -> bool) (pre s post : str) :
  forallb p pre = true -> forallb p post = true ->
  strip_with p (pre ++ s ++ post) = strip_with p s.
Proof.
  intros Hpre Hpost. unfold strip_with, lstrip_with.
  rewrite dropwhile_app, Hpre, dropwhile_app.
  destruct (forallb p s) eqn:E.
  - rewrite (dropwhile_all _ _ Hpost), (dropwhile_all _ _ E). reflexivity.
  - now apply rstrip_with_app_all.
Qed.

Lemma strip_idem (s : str) : strip (strip s) = strip s.
Proof. apply strip_with_idem. Qed.

Lemma parse_date_strip_eq (s t : str) :
  strip s = strip t -> parse_date s = parse_date t.
Proof. intros H. unfold parse_date. now rewrite H. Qed.

Lemma parse_date_flag (s : str) (dt : datetime) (flag : bool) :
  parse_date s = Ok (dt, flag) ->
  flag = contains "T" (strip s) || contains " " (strip s).
Proof.
  unfold parse_date.
  destruct (contains "T" (strip s) || contains " " (strip s));
    destruct (strptime _ _); simpl; congruence.
Qed.

(** C10. [parse_date] is invariant under trimming: the result, or the
    failure, on [s] is the one on [s.strip()], and white space added
    around [s] changes nothing; in particular, space around a string
    whose trimmed form has neither [T] nor space never selects a format
    with a time. *)
Theorem parse_date_trim_invariant (s : str) :
  parse_date (strip s) = parse_date s /\
  (forall pre post,
     forallb isspace pre = true -> forallb isspace post = true ->
     parse_date (pre ++ s ++ post) = parse_date s) /\
  (forall pre post dt flag,
     forallb isspace pre = true -> forallb isspace post = true ->
     contains "T" (strip s) = false -> contains " " (strip s) = false ->
     parse_date (pre ++ s ++ post) = Ok (dt, flag) -> flag = false).
Proof.
  assert (Hpad : forall pre post,
            forallb isspace pre = true -> forallb isspace post = true ->
            strip (pre ++ s ++ post) = strip s).
  { intros. now apply strip_with_padded. }
  repeat split.
  - apply parse_date_strip_eq, strip_idem.
  - intros pre post Hpre Hpost. now apply parse_date_strip_eq, Hpad.
  - intros pre post dt flag Hpre Hpost HT Hsp H.
    apply parse_date_flag in H.
    rewrite (Hpad _ _ Hpre Hpost), HT, Hsp in H. exact H.
Qed.

Lemma parse_date_trim_invariant_witness :
  parse_date (py "  " ++ py "2024-06-01" ++ py " ")
    = Ok (mk_datetime 2024 6 1 0 0 0 0, false).
Proof.
  destruct (parse_date_trim_invariant (py "2024-06-01")) as [_ [H _]].
  rewrite (H (py "  ") (py " ") eq_refl eq_refl). reflexivity.
Defined.

(** ** The exceptions of the parsers *)

Lemma int_raises (s : str) (e : exn) : int s = Raise e -> e = ValueError.
Proof. unfold int. destruct (int_signed _); congruence. Qed.

Lemma group_int_raises name default g e :
  group_int name default g = Raise e -> e = ValueError.
Proof.
  unfold group_int. destruct (group name g); [apply int_raises|discriminate].
Qed.

Lemma datetime_new_raises y m d H M S us e :
  datetime_new y m d H M S us = Raise e -> e = ValueError.
Proof. unfold datetime_new. destruct (_ && _); congruence. Qed.

Lemma strptime_raises (data_string format : str) (e : exn) :
  strptime data_string format = Raise e -> e = ValueError.
Proof.
  unfold strptime.
  destruct (pattern false format) as [ts|]; [|congruence].
  destruct (match_tokens ts data_string []) as [[g [|c r]]|]; try congruence.
  repeat match goal with
         | |- context [group_int ?n ?d g] =>
             let E := fresh "E" in
             destruct (group_int n d g) eqn:E; simpl;
             [| apply group_int_raises in E; congruence]
         end.
  apply datetime_new_raises.
Qed.

Lemma parse_date_raises (s : str) (e : exn) :
  parse_date s = Raise e -> e = ValueError.
Proof.
  unfold parse_date.
  destruct (contains "T" (strip s) || contains " " (strip s));
    match goal with
    | |- context [strptime ?d ?f] =>
        let E := fresh "E" in
        destruct (strptime d f) eqn:E; simpl;
        [discriminate | apply strptime_raises in E; congruence]
    end.
Qed.

(** The expressions of the three formats of [parse_date]. *)
Lemma parse_date_patterns :
  let Y := TGroup "Y" [[CDigit; CDigit; CDigit; CDigit]] in
  let m := TGroup "m" [[CChar "1"; CRange "0" "2"]; [CChar "0"; CRange "1" "9"];
                       [CRange "1" "9"]] in
  let d := TGroup "d" [[CChar "3"; CRange "0" "1"]; [CRange "1" "2"; CDigit];
                       [CChar "0"; CRange "1" "9"]; [CRange "1" "9"];
                       [CChar " "; CRange "1" "9"]] in
  let H := TGroup "H" [[CChar "2"; CRange "0" "3"]; [CRange "0" "1"; CDigit];
                       [CDigit]] in
  let M := TGroup "M" [[CRange "0" "5"; CDigit]; [CDigit]] in
  pattern false (py "%Y-%m-%dT%H:%M")
    = Some [Y; TLit "-"; m; TLit "-"; d; TLit "T"; H; TLit ":"; M] /\
  pattern false (py "%Y-%m-%d %H:%M")
    = Some [Y; TLit "-"; m; TLit "-"; d; TSpaces; H; TLit ":"; M] /\
  pattern false (py "%Y-%m-%d") = Some [Y; TLit "-"; m; TLit "-"; d].
Proof. repeat split. Qed.

(** C3. [parse_date] chooses its format from the trimmed string alone:
    with a [T] it parses [%Y-%m-%dT%H:%M] and the flag is true; else with
    a space it parses [%Y-%m-%d %H:%M] and the flag is true; else it
    parses [%Y-%m-%d] and the flag is false.  When the chosen format
    does not match, the call raises [ValueError] (whatever another
    format would give), and it raises nothing else. *)
Theorem parse_date_format_selection (s : str) :
  let t := strip s in
  (contains "T" t = true ->
     parse_date s
       = (dt <- strptime t (py "%Y-%m-%dT%H:%M") ;; Ok (dt, true))) /\
  (contains "T" t = false -> contains " " t = true ->
     parse_date s
       = (dt <- strptime t (py "%Y-%m-%d %H:%M") ;; Ok (dt, true))) /\
  (contains "T" t = false -> contains " " t = false ->
     parse_date s
       = (dt <- strptime t (py "%Y-%m-%d") ;; Ok (dt, false))) /\
  (forall format e,
     format = (if contains "T" t then py "%Y-%m-%dT%H:%M"
               else if contains " " t then py "%Y-%m-%d %H:%M"
               else py "%Y-%m-%d") ->
     strptime t format = Raise e ->
     parse_date s = Raise ValueError) /\
  (forall e, parse_date s = Raise e -> e = ValueError).
Proof.
  intros t. subst t. unfold parse_date. repeat split.
  - intros ->. reflexivity.
  - intros -> ->. reflexivity.
  - intros -> ->. reflexivity.
  - intros format e ->.
    destruct (contains "T" (strip s));
      [|destruct (contains " " (strip s))];
      cbn [orb]; intros H; rewrite H; cbn [bind];
      now rewrite (strptime_raises _ _ _ H).
  - apply parse_date_raises.
Qed.

Lemma parse_date_format_selection_witness :
  parse_date (py "2024-06-01 09:30") = Ok (mk_datetime 2024 6 1 9 30 0 0, true).
Proof.
  destruct (parse_date_format_selection (py "2024-06-01 09:30"))
    as [_ [H _]].
  rewrite H; reflexivity.
Defined.

(** No second format is tried: the space in ["2024-06- 1"] selects the
    format with a time, which fails, although [%Y-%m-%d] alone accepts
    the string. *)
Example parse_date_no_fallback :
  parse_date (py "2024-06- 1") = Raise ValueError /\
  strptime (py "2024-06- 1") (py "%Y-%m-%d") = Ok (mk_datetime 2024 6 1 0 0 0 0) /\
  parse_date (py "2024-06-01 T") = Raise ValueError /\
  parse_date (py "2024-06-01t09:00") = Raise ValueError.
Proof. repeat split. Qed.

(** ** Durations *)

Lemma contains_true_iff (c : ascii) (s : str) : contains c s = true <-> In c s.
Proof.
  unfold contains. rewrite existsb_exists. split.
  - intros (x & Hx & E). apply Ascii.eqb_eq in E. now subst.
  - intros H. exists c. split; [exact H|apply Ascii.eqb_refl].
Qed.

Lemma contains_false_sub (c : ascii) (s t : str) :
  (forall x, In x t -> In x s) -> contains c s = false -> contains c t = false.
Proof.
  intros Hsub Hs. destruct (contains c t) eqn:E; [|reflexivity].
  apply contains_true_iff, Hsub, contains_true_iff in E. congruence.
Qed.

Lemma In_dropwhile (p : ascii -> bool) (x : ascii) (s : str) :
  In x (dropwhile p s) -> In x s.
Proof.
  induction s as [|c s IH]; simpl; [tauto|].
  destruct (p c); simpl; tauto.
Qed.

Lemma In_strip_with (p : ascii -> bool) (x : ascii) (s : str) :
  In x (strip_with p s) -> In x s.
Proof.
  unfold strip_with, rstrip_with, lstrip_with. intros H.
  apply In_rev, In_dropwhile, In_rev, In_dropwhile in H. exact H.
Qed.

Lemma In_but_last (x : ascii) (s : str) : In x (but_last s) -> In x s.
Proof.
  unfold but_last. induction s as [|c s IH]; simpl; [tauto|].
  destruct s; simpl in *; tauto.
Qed.

Lemma In_split (sep : ascii) (s part : str) (x : ascii) :
  In part (split sep s) -> In x part -> In x s.
Proof.
  revert part. induction s as [|c s IH]; simpl; intros part Hp Hx.
  - destruct Hp as [<-|[]]. exact Hx.
  - destruct (Ascii.eqb c sep).
    + destruct Hp as [<-|Hp]; [destruct Hx|]. right. eauto.
    + destruct (split sep s) as [|p ps].
      * destruct Hp as [<-|[]]. destruct Hx as [->|[]]. now left.
      * destruct Hp as [<-|Hp].
        -- destruct Hx as [->|Hx]; [now left|]. right.
           apply (IH p); [now left|exact Hx].
        -- right. apply (IH part); [now right|exact Hx].
Qed.

Lemma isdigit_value (c : ascii) : isdigit c = true -> 0 <= digit_value c <= 9.
Proof.
  unfold isdigit, in_range, digit_value. intros H.
  apply andb_true_iff in H. destruct H as [H1 H2].
  apply Z.leb_le in H1, H2. lia.
Qed.

Lemma int_digits_nonneg (s : str) : forall us acc v,
  0 <= acc -> int_digits us acc s = Some v -> 0 <= v.
Proof.
  induction s as [|c s IH]; simpl; intros us acc v Hacc H.
  - destruct us; [discriminate|]. injection H as <-. exact Hacc.
  - destruct (isdigit c) eqn:Ed.
    + apply isdigit_value in Ed. eapply IH; [|exact H]. lia.
    + destruct (Ascii.eqb c "_"); [|discriminate].
      destruct us; [discriminate|]. apply (IH _ _ _ Hacc H).
Qed.

Lemma int_unsigned_nonneg (s : str) (v : Z) : int_unsigned s = Some v -> 0 <= v.
Proof.
  destruct s as [|c s]; simpl; [discriminate|].
  destruct (isdigit c) eqn:Ed; [|discriminate].
  apply isdigit_value in Ed. apply int_digits_nonneg. lia.
Qed.

Lemma int_nonneg (s : str) (v : Z) :
  int s = Ok v -> contains "-" s = false -> 0 <= v.
Proof.
  unfold int. intros H Hm.
  apply (contains_false_sub _ _ _ (fun x => In_strip_with int_space x s)) in Hm.
  destruct (strip_with int_space s) as [|c t]; [discriminate|].
  assert (Hc : Ascii.eqb c "-" = false).
  { apply Ascii.eqb_neq. intros ->.
    assert (contains "-" ("-"%char :: t) = true)
      by (apply contains_true_iff; now left).
    congruence. }
  unfold int_signed in H. rewrite Hc in H.
  destruct (Ascii.eqb c "+").
  - destruct (int_unsigned t) eqn:E; [|discriminate].
    injection H as <-. now apply int_unsigned_nonneg in E.
  - match type of H with
    | match ?u with _ => _ end = _ => destruct u eqn:E; [|discriminate]
    end.
    injection H as <-. apply (int_unsigned_nonneg (c :: t)). exact E.
Qed.

Lemma timedelta_new_total (h m : Z) (td : timedelta) :
  timedelta_new h m = Ok td ->
  total_seconds td = h * 3600 + m * 60 /\
  0 <= seconds td < 86400 /\ microseconds td = 0.
Proof.
  unfold timedelta_new, total_seconds.
  destruct (_ >? _); [discriminate|]. intros H. injection H as <-. simpl.
  pose proof (Z.div_mod (m * 60 + h * 3600) 86400 ltac:(lia)).
  pose proof (Z.mod_pos_bound (m * 60 + h * 3600) 86400 ltac:(lia)).
  lia.
Qed.

(** The shapes of [parse_duration], in the order the code tries them,
    on the trimmed string [t]. *)
Lemma parse_duration_shapes (s : str) :
  let t := strip s in
  (contains ":" t = true ->
     parse_duration s
       = match split ":" t with
         | [hours; minutes] =>
             h <- int hours ;; m <- int minutes ;; timedelta_new h m
         | _ => Raise ValueError
         end) /\
  (forall p, contains ":" t = false -> t = p ++ [ "m"%char ] ->
     parse_duration s = (m <- int p ;; timedelta_new 0 m)) /\
  (forall p, contains ":" t = false -> t = p ++ [ "h"%char ] ->
     parse_duration s = (h <- int p ;; timedelta_new h 0)) /\
  (forall p c, contains ":" t = false -> t = p ++ [c] ->
     c <> "m"%char -> c <> "h"%char ->
     parse_duration s = Raise ValueError) /\
  (t = [] -> parse_duration s = Raise IndexError).
Proof.
  intros t. subst t. unfold parse_duration, last_char, but_last.
  repeat split.
  - intros ->. reflexivity.
  - intros p -> ->. rewrite rev_app_distr, removelast_last. reflexivity.
  - intros p -> ->. rewrite rev_app_distr, removelast_last. reflexivity.
  - intros p c -> -> Hm Hh. rewrite rev_app_distr. simpl.
    apply Ascii.eqb_neq in Hm, Hh. now rewrite Hm, Hh.
  - intros ->. reflexivity.
Qed.


(** C4, on a duration of white space only: it matches none of the
    shapes, and [parse_duration] raises [IndexError] (from
    [duration_str[-1]]), not the [ValueError] of its last line; in [main]
    the exception passes the [except ValueError] handler. *)
Theorem parse_duration_blank_IndexError :
  parse_duration (py " ") = Raise IndexError /\
  parse_duration [] = Raise IndexError /\
  main store_home args_blank_duration = Uncaught IndexError.
Proof. repeat split. Qed.

(** C8, on an input with a minus sign: [int] accepts the sign and the
    span is negative. *)
Lemma parse_duration_negative :
  parse_duration (py "-5m") = Ok (mk_timedelta (-1) 86100 0) /\
  total_seconds (mk_timedelta (-1) 86100 0) = -300 /\
  parse_duration (py "-1:00") = Ok (mk_timedelta (-1) 82800 0) /\
  total_seconds (mk_timedelta (-1) 82800 0) = -3600.
Proof. repeat split. Qed.

(** C8. Every [timedelta] that [parse_duration] returns is
    normalised, and it is a non-negative span whenever the input has no
    minus sign. *)
Theorem parse_duration_nonneg_without_minus (s : str) (td : timedelta) :
  parse_duration s = Ok td ->
  (0 <= seconds td < 86400 /\ microseconds td = 0) /\
  (contains "-" s = false -> 0 <= total_seconds td /\ 0 <= days td).
Proof.
  intros H.
  assert (G : exists h m, timedelta_new h m = Ok td /\
                          (contains "-" s = false -> 0 <= h /\ 0 <= m)).
  { unfold parse_duration in H.
    assert (Hsub : forall x, In x (strip s) -> In x s)
      by (intro x; apply In_strip_with).
    destruct (contains ":" (strip s)).
    - destruct (split ":" (strip s)) as [|hours [|minutes [|]]] eqn:Es;
        try discriminate.
      destruct (int hours) as [h|] eqn:Eh; [|discriminate].
      destruct (int minutes) as [m|] eqn:Em; [|discriminate].
      exists h, m. split; [exact H|]. intros Hm. split.
      + apply (int_nonneg _ _ Eh), (contains_false_sub _ s); [|exact Hm].
        intros x Hx. apply Hsub, (In_split ":" _ hours); [|exact Hx].
        rewrite Es. now left.
      + apply (int_nonneg _ _ Em), (contains_false_sub _ s); [|exact Hm].
        intros x Hx. apply Hsub, (In_split ":" _ minutes); [|exact Hx].
        rewrite Es. right. now left.
    - destruct (last_char (strip s)) as [c|]; [|discriminate]. simpl in H.
      assert (Hp : forall v, int (but_last (strip s)) = Ok v ->
                             contains "-" s = false -> 0 <= v).
      { intros v Hv Hm. apply (int_nonneg _ _ Hv), (contains_false_sub _ s);
          [|exact Hm].
        intros x Hx. apply Hsub, In_but_last, Hx. }
      destruct (Ascii.eqb c "m"); [|destruct (Ascii.eqb c "h"); [|discriminate]];
        destruct (int (but_last (strip s))) as [v|] eqn:Ev; try discriminate.
      + exists 0, v. split; [exact H|]. intros Hm. split; [lia|eauto].
      + exists v, 0. split; [exact H|]. intros Hm. split; [eauto|lia]. }
  destruct G as (h & m & Htd & Hpos).
  destruct (timedelta_new_total _ _ _ Htd) as (Htot & Hsec & Hus).
  split; [tauto|]. intros Hm. destruct (Hpos Hm) as [Hh Hmm].
  split; [lia|]. unfold total_seconds in Htot. lia.
Qed.

Lemma parse_duration_nonneg_without_minus_witness :
  0 <= total_seconds (mk_timedelta 0 5400 0) /\ 0 <= days (mk_timedelta 0 5400 0).
Proof.
  apply (parse_duration_nonneg_without_minus (py "1:30") (mk_timedelta 0 5400 0));
    reflexivity.
Defined.

(** ** Date-only strings *)

Example date_string_examples :
  date_string 2024 6 1 = py "2024-06-01" /\
  date_string 987 12 31 = py "0987-12-31" /\
  date_string 1 1 1 = py "0001-01-01".
Proof. repeat split. Qed.

(** A digit character is a digit and nothing else the parsers look for. *)
Lemma digit_char_facts (k : Z) :
  0 <= k <= 9 ->
  isdigit (digit_char k) = true /\
  digit_value (digit_char k) = k /\
  isspace (digit_char k) = false /\
  int_space (digit_char k) = false /\
  Ascii.eqb (digit_char k) "-" = false /\
  Ascii.eqb (digit_char k) "+" = false /\
  Ascii.eqb "T" (digit_char k) = false /\
  Ascii.eqb " " (digit_char k) = false.
Proof.
  intros H.
  assert (E : In k [0; 1; 2; 3; 4; 5; 6; 7; 8; 9]) by (simpl; lia).
  simpl in E. decompose [or] E; subst; try contradiction; repeat split.
Qed.

Lemma strip_with_id (p : ascii -> bool) (a b : ascii) (l : str) :
  p a = false -> p b = false ->
  strip_with p (a :: l ++ [b]) = a :: l ++ [b].
Proof.
  intros Ha Hb.
  assert (E : rev (a :: l ++ [b]) = b :: rev l ++ [a])
    by (simpl; rewrite rev_app_distr; reflexivity).
  unfold strip_with, lstrip_with, rstrip_with.
  cbn [dropwhile]. rewrite Ha, E. cbn [dropwhile]. rewrite Hb, <- E.
  apply rev_involutive.
Qed.

Lemma four_digits_decomp (y : Z) :
  0 <= y <= 9999 ->
  0 <= y / 1000 <= 9 /\ 0 <= y / 100 mod 10 <= 9 /\
  0 <= y / 10 mod 10 <= 9 /\ 0 <= y mod 10 <= 9 /\
  ((y / 1000 * 10 + y / 100 mod 10) * 10 + y / 10 mod 10) * 10 + y mod 10 = y.
Proof.
  intros H.
  pose proof (Z.div_mod y 10 ltac:(lia)).
  pose proof (Z.mod_pos_bound y 10 ltac:(lia)).
  pose proof (Z.div_mod (y / 10) 10 ltac:(lia)).
  pose proof (Z.mod_pos_bound (y / 10) 10 ltac:(lia)).
  pose proof (Z.div_mod (y / 100) 10 ltac:(lia)).
  pose proof (Z.mod_pos_bound (y / 100) 10 ltac:(lia)).
  assert (E1 : y / 10 / 10 = y / 100) by (rewrite Z.div_div by lia; reflexivity).
  assert (E2 : y / 100 / 10 = y / 1000) by (rewrite Z.div_div by lia; reflexivity).
  rewrite E1 in *. rewrite E2 in *.
  assert (0 <= y / 1000 <= 9).
  { split; [apply Z.div_pos; lia|].
    assert (y / 1000 < 10) by (apply Z.div_lt_upper_bound; lia). lia. }
  lia.
Qed.

Lemma two_digits_decomp (n : Z) :
  0 <= n <= 99 ->
  0 <= n / 10 <= 9 /\ 0 <= n mod 10 <= 9 /\ n / 10 * 10 + n mod 10 = n.
Proof.
  intros H.
  pose proof (Z.div_mod n 10 ltac:(lia)).
  pose proof (Z.mod_pos_bound n 10 ltac:(lia)).
  assert (0 <= n / 10 <= 9).
  { split; [apply Z.div_pos; lia|].
    assert (n / 10 < 10) by (apply Z.div_lt_upper_bound; lia). lia. }
  lia.
Qed.

(** Rewriting with the facts of the digit characters of a goal. *)
Ltac digit_facts k H :=
  let H1 := fresh "Hd" in let H2 := fresh "Hv" in let H3 := fresh "Hs" in
  let H4 := fresh "Hi" in let H5 := fresh "Hm" in let H6 := fresh "Hp" in
  let H7 := fresh "HT" in let H8 := fresh "Hb" in
  destruct (digit_char_facts k H) as (H1 & H2 & H3 & H4 & H5 & H6 & H7 & H8).

Lemma int_four_digits (y : Z) : 0 <= y <= 9999 -> int (four_digits y) = Ok y.
Proof.
  intros H. destruct (four_digits_decomp y H) as (Ha & Hb & Hc & He & Hy).
  unfold four_digits, int.
  digit_facts (y / 1000) Ha. digit_facts (y / 100 mod 10) Hb.
  digit_facts (y / 10 mod 10) Hc. digit_facts (y mod 10) He.
  change [digit_char (y / 1000); digit_char (y / 100 mod 10);
          digit_char (y / 10 mod 10); digit_char (y mod 10)]
    with (digit_char (y / 1000)
            :: [digit_char (y / 100 mod 10); digit_char (y / 10 mod 10)]
            ++ [digit_char (y mod 10)]).
  rewrite strip_with_id by assumption.
  cbn [app int_signed int_unsigned int_digits].
  repeat match goal with
         | E : _ = _ |- _ => rewrite E
         end.
  cbn [int_digits]. reflexivity.
Qed.

Lemma int_two_digits (n : Z) : 0 <= n <= 99 -> int (two_digits n) = Ok n.
Proof.
  intros H. destruct (two_digits_decomp n H) as (Ha & Hb & Hn).
  unfold two_digits, int.
  digit_facts (n / 10) Ha. digit_facts (n mod 10) Hb.
  change [digit_char (n / 10); digit_char (n mod 10)]
    with (digit_char (n / 10) :: [] ++ [digit_char (n mod 10)]).
  rewrite strip_with_id by assumption.
  cbn [app int_signed int_unsigned int_digits].
  repeat match goal with
         | E : _ = _ |- _ => rewrite E
         end.
  cbn [int_digits]. reflexivity.
Qed.

(** The month and day of a date string against the end of the date
    format, whatever was matched before. *)
Lemma match_date_tail (g : groups) (m d : Z) (am ad : list (list cclass)) :
  directive "m" = Some am -> directive "d" = Some ad ->
  1 <= m <= 12 -> 1 <= d <= 31 ->
  match_tokens [TLit "-"; TGroup "m" am; TLit "-"; TGroup "d" ad]
    ("-"%char :: two_digits m ++ "-"%char :: two_digits d) g
  = Some (("d"%char, two_digits d) :: ("m"%char, two_digits m) :: g, []).
Proof.
  intros Eam Ead Hm Hd.
  vm_compute in Eam, Ead. injection Eam as <-. injection Ead as <-.
  assert (Em : In m [1; 2; 3; 4; 5; 6; 7; 8; 9; 10; 11; 12]) by (simpl; lia).
  assert (Ed : In d [1; 2; 3; 4; 5; 6; 7; 8; 9; 10; 11; 12; 13; 14; 15; 16;
                     17; 18; 19; 20; 21; 22; 23; 24; 25; 26; 27; 28; 29; 30;
                     31]) by (simpl; lia).
  clear Hm Hd. simpl in Em, Ed.
  decompose [or] Em; try contradiction; subst m;
    decompose [or] Ed; try contradiction; subst d; reflexivity.
Qed.

(** The year of a date string against the year group. *)
Lemma match_year_group (k : str -> groups -> option (groups * str))
    (y : Z) (rest : str) (g : groups) (res : groups * str) :
  0 <= y <= 9999 ->
  k rest (("Y"%char, four_digits y) :: g) = Some res ->
  first_alt k "Y" [[CDigit; CDigit; CDigit; CDigit]] (four_digits y ++ rest) g
    = Some res.
Proof.
  intros H Hk. destruct (four_digits_decomp y H) as (Ha & Hb & Hc & He & _).
  unfold four_digits in *.
  digit_facts (y / 1000) Ha. digit_facts (y / 100 mod 10) Hb.
  digit_facts (y / 10 mod 10) Hc. digit_facts (y mod 10) He.
  cbn [first_alt match_classes app cclass_match].
  rewrite Hd, Hd0, Hd1, Hd2, Hk. reflexivity.
Qed.

Lemma date_string_selects_date_format (y m d : Z) :
  0 <= y <= 9999 -> 0 <= m <= 99 -> 0 <= d <= 99 ->
  strip (date_string y m d) = date_string y m d /\
  contains "T" (date_string y m d) = false /\
  contains " " (date_string y m d) = false.
Proof.
  intros Hy Hm Hd.
  destruct (four_digits_decomp y Hy) as (Ha & Hb & Hc & He & _).
  destruct (two_digits_decomp m Hm) as (Hm1 & Hm2 & _).
  destruct (two_digits_decomp d Hd) as (Hd1 & Hd2 & _).
  unfold date_string, four_digits, two_digits.
  digit_facts (y / 1000) Ha. digit_facts (y / 100 mod 10) Hb.
  digit_facts (y / 10 mod 10) Hc. digit_facts (y mod 10) He.
  digit_facts (m / 10) Hm1. digit_facts (m mod 10) Hm2.
  digit_facts (d / 10) Hd1. digit_facts (d mod 10) Hd2.
  split; [|split].
  - unfold strip.
    match goal with
    | |- strip_with _ ?s = _ =>
        match eval cbn [app] in s with
        | ?a :: ?b :: ?c :: ?e :: ?f :: ?g :: ?h :: ?i :: ?j :: [?z] =>
            change s with (a :: [b; c; e; f; g; h; i; j] ++ [z])
        end
    end.
    now rewrite strip_with_id.
  - cbn [app contains existsb].
    repeat match goal with
           | E : Ascii.eqb "T" _ = false |- _ => rewrite E; clear E
           end.
    reflexivity.
  - cbn [app contains existsb].
    repeat match goal with
           | E : Ascii.eqb " " _ = false |- _ => rewrite E; clear E
           end.
    reflexivity.
Qed.

(** Matching binds only the groups of the expression. *)
Lemma match_tokens_keeps_group (name : ascii) (ts : list token) :
  no_group name ts = true ->
  forall s g g' r,
    match_tokens ts s g = Some (g', r) -> group name g' = group name g.
Proof.
  induction ts as [|t ts IH]; simpl; intros Hn s g g' r H.
  - now injection H as <- _.
  - apply andb_true_iff in Hn. destruct Hn as [Ht Hn].
    specialize (IH Hn). destruct t as [c| |n alts].
    + destruct s as [|x s]; [discriminate|].
      destruct (eqb_nocase c x); [eauto|discriminate].
    + revert H. induction s as [|x s IHs]; simpl; [discriminate|].
      destruct (isspace x); [|discriminate].
      destruct (spaces (match_tokens ts) s g) eqn:E; [auto|eauto].
    + revert H. induction alts as [|a alts IHa]; simpl; [discriminate|].
      destruct (match_classes a s) as [[mt rest]|]; [|exact IHa].
      destruct (match_tokens ts rest ((n, mt) :: g)) eqn:E; [|exact IHa].
      intros H. injection H as ->. apply IH in E. rewrite E. simpl.
      apply negb_true_iff in Ht. now rewrite Ht.
Qed.

Lemma days_in_month_le_31 (y m : Z) : days_in_month y m <= 31.
Proof.
  unfold days_in_month. destruct ((m =? 2) && is_leap y); [lia|].
  unfold DAYS_IN_MONTH. destruct m as [|p|p]; try lia.
  do 4 (try destruct p as [p|p|]; try lia).
Qed.

Lemma strptime_date_string (y m d : Z) :
  1 <= y <= 9999 -> 1 <= m <= 12 -> 1 <= d <= days_in_month y m ->
  strptime (date_string y m d) (py "%Y-%m-%d") = Ok (mk_datetime y m d 0 0 0 0).
Proof.
  intros Hy Hm Hd. pose proof (days_in_month_le_31 y m) as H31.
  pose proof parse_date_patterns as P. cbv zeta in P.
  destruct P as (_ & _ & P). unfold strptime. rewrite P.
  match goal with
  | |- context [match_tokens (TGroup "Y" ?a :: ?ts) ?s ?g] =>
      assert (E : match_tokens (TGroup "Y" a :: ts) s g
                  = Some ([("d"%char, two_digits d); ("m"%char, two_digits m);
                           ("Y"%char, four_digits y)], []))
        by (change (match_tokens (TGroup "Y" a :: ts) s g)
              with (first_alt (match_tokens ts) "Y" a s g);
            unfold date_string;
            apply match_year_group; [lia|];
            apply match_date_tail; try reflexivity; lia)
  end.
  rewrite E. unfold group_int. cbn [group Ascii.eqb Bool.eqb].
  rewrite int_four_digits, !int_two_digits by lia. cbn [bind].
  unfold datetime_new.
  replace (1 <=? y) with true by (symmetry; apply Z.leb_le; lia).
  replace (y <=? 9999) with true by (symmetry; apply Z.leb_le; lia).
  replace (1 <=? m) with true by (symmetry; apply Z.leb_le; lia).
  replace (m <=? 12) with true by (symmetry; apply Z.leb_le; lia).
  replace (1 <=? d) with true by (symmetry; apply Z.leb_le; lia).
  replace (d <=? days_in_month y m) with true by (symmetry; apply Z.leb_le; lia).
  reflexivity.
Qed.

(** A successful date-only parse is at midnight. *)
Lemma parse_date_date_only_midnight (s : str) (dt : datetime) :
  parse_date s = Ok (dt, false) ->
  hour dt = 0 /\ minute dt = 0 /\ second dt = 0 /\ microsecond dt = 0.
Proof.
  intros H. pose proof (parse_date_flag _ _ _ H) as Hf.
  unfold parse_date in H. rewrite <- Hf in H.
  destruct (strptime (strip s) (py "%Y-%m-%d")) as [dt'|] eqn:E;
    [|discriminate].
  injection H as ->. unfold strptime in E.
  pose proof parse_date_patterns as P. cbv zeta in P.
  destruct P as (_ & _ & P). rewrite P in E.
  match type of E with
  | context [match_tokens ?ts ?s ?g] =>
      destruct (match_tokens ts s g) as [[g' [|c r]]|] eqn:Em;
      try discriminate;
      pose proof (match_tokens_keeps_group "H" ts eq_refl _ _ _ _ Em) as HH;
      pose proof (match_tokens_keeps_group "M" ts eq_refl _ _ _ _ Em) as HM
  end.
  unfold group_int in E. rewrite HH, HM in E. cbn [group] in E.
  destruct (match group "Y" g' with Some m => int m | None => Ok 1900 end);
    [|discriminate].
  destruct (match group "m" g' with Some m => int m | None => Ok 1 end);
    [|discriminate].
  destruct (match group "d" g' with Some m => int m | None => Ok 1 end);
    [|discriminate].
  cbn [bind] in E. unfold datetime_new in E.
  destruct (_ && _) in E; [|discriminate].
  injection E as <-. repeat split.
Qed.

(** C9. For every valid date [y-m-d], written [YYYY-MM-DD], [parse_date]
    returns that date at midnight (hour, minute, second and microsecond
    zero) with the time flag false; and whenever [parse_date] returns the
    flag false, the value is at midnight. *)
Theorem parse_date_date_only (y m d : Z) :
  1 <= y <= 9999 -> 1 <= m <= 12 -> 1 <= d <= days_in_month y m ->
  parse_date (date_string y m d) = Ok (mk_datetime y m d 0 0 0 0, false) /\
  (forall s dt,
     parse_date s = Ok (dt, false) ->
     hour dt = 0 /\ minute dt = 0 /\ second dt = 0 /\ microsecond dt = 0).
Proof.
  intros Hy Hm Hd. split; [|apply parse_date_date_only_midnight].
  pose proof (days_in_month_le_31 y m) as H31.
  destruct (date_string_selects_date_format y m d) as (Hs & HT & Hsp);
    try lia.
  unfold parse_date. rewrite Hs, HT, Hsp. cbn [orb].
  now rewrite strptime_date_string.
Qed.

Lemma parse_date_date_only_witness :
  parse_date (date_string 2024 2 29) = Ok (mk_datetime 2024 2 29 0 0 0 0, false).
Proof.
  apply (parse_date_date_only 2024 2 29); vm_compute; split; discriminate.
Defined.

(** ** Strings with a time *)

Example datetime_string_examples :
  datetime_string "T" 2024 6 1 9 5 = py "2024-06-01T09:05" /\
  datetime_string " " 1999 12 31 23 59 = py "1999-12-31 23:59".
Proof. repeat split. Qed.

Lemma match_tokens_lit (c x : ascii) (ts : list token) (s : str) (g : groups) :
  eqb_nocase c x = true ->
  match_tokens (TLit c :: ts) (x :: s) g = match_tokens ts s g.
Proof. intros H. simpl. now rewrite H. Qed.

Lemma match_tokens_space (ts : list token) (x : ascii) (s : str) (g : groups)
    (res : groups * str) :
  isspace x = false ->
  match_tokens ts (x :: s) g = Some res ->
  match_tokens (TSpaces :: ts) (" "%char :: x :: s) g = Some res.
Proof. intros Hx H. simpl. now rewrite Hx. Qed.

(** A zero-padded number in the range of its directive is matched whole
    by the first alternative that matches at all. *)
Ltac solve_two_digit_group n Hk :=
  match goal with
  | Ha : directive _ = Some _ |- _ => vm_compute in Ha; injection Ha as <-
  end;
  match goal with
  | H : In n _ |- _ =>
      simpl in H; decompose [or] H; try contradiction; subst n;
      match type of Hk with
      | context [two_digits ?x] =>
          let v := eval vm_compute in (two_digits x) in
          change (two_digits x) with v in *
      end;
      cbn; rewrite Hk; reflexivity
  end.

Section TwoDigitGroups.
Variable k : str -> groups -> option (groups * str).
Variables (rest : str) (g : groups) (res : groups * str).

Lemma match_month_group (alts : list (list cclass)) (m : Z) :
  directive "m" = Some alts -> 1 <= m <= 12 ->
  k rest (("m"%char, two_digits m) :: g) = Some res ->
  first_alt k "m" alts (two_digits m ++ rest) g = Some res.
Proof.
  intros Ha H Hk.
  assert (E : In m [1; 2; 3; 4; 5; 6; 7; 8; 9; 10; 11; 12]) by (simpl; lia).
  clear H. solve_two_digit_group m Hk.
Qed.

Lemma match_day_group (alts : list (list cclass)) (d : Z) :
  directive "d" = Some alts -> 1 <= d <= 31 ->
  k rest (("d"%char, two_digits d) :: g) = Some res ->
  first_alt k "d" alts (two_digits d ++ rest) g = Some res.
Proof.
  intros Ha H Hk.
  assert (E : In d [1; 2; 3; 4; 5; 6; 7; 8; 9; 10; 11; 12; 13; 14; 15; 16;
                    17; 18; 19; 20; 21; 22; 23; 24; 25; 26; 27; 28; 29; 30;
                    31]) by (simpl; lia).
  clear H. solve_two_digit_group d Hk.
Qed.

Lemma match_hour_group (alts : list (list cclass)) (H : Z) :
  directive "H" = Some alts -> 0 <= H <= 23 ->
  k rest (("H"%char, two_digits H) :: g) = Some res ->
  first_alt k "H" alts (two_digits H ++ rest) g = Some res.
Proof.
  intros Ha HH Hk.
  assert (E : In H [0; 1; 2; 3; 4; 5; 6; 7; 8; 9; 10; 11; 12; 13; 14; 15; 16;
                    17; 18; 19; 20; 21; 22; 23]) by (simpl; lia).
  clear HH. solve_two_digit_group H Hk.
Qed.

Lemma match_minute_group (alts : list (list cclass)) (M : Z) :
  directive "M" = Some alts -> 0 <= M <= 59 ->
  k rest (("M"%char, two_digits M) :: g) = Some res ->
  first_alt k "M" alts (two_digits M ++ rest) g = Some res.
Proof.
  intros Ha HM Hk.
  assert (E : In M [0; 1; 2; 3; 4; 5; 6; 7; 8; 9; 10; 11; 12; 13; 14; 15; 16;
                    17; 18; 19; 20; 21; 22; 23; 24; 25; 26; 27; 28; 29; 30;
                    31; 32; 33; 34; 35; 36; 37; 38; 39; 40; 41; 42; 43; 44;
                    45; 46; 47; 48; 49; 50; 51; 52; 53; 54; 55; 56; 57; 58;
                    59]) by (simpl; lia).
  clear HM. solve_two_digit_group M Hk.
Qed.
End TwoDigitGroups.

Lemma match_tokens_group (n : ascii) (alts : list (list cclass))
    (ts : list token) :
  match_tokens (TGroup n alts :: ts) = first_alt (match_tokens ts) n alts.
Proof. reflexivity. Qed.

Lemma match_tokens_spaces_one (ts : list token) (s : str) (g : groups)
    (res : groups * str) :
  match s with x :: _ => isspace x | [] => false end = false ->
  match_tokens ts s g = Some res ->
  match_tokens (TSpaces :: ts) (" "%char :: s) g = Some res.
Proof.
  intros Hx H. simpl. destruct s as [|x s]; simpl; [exact H|].
  now rewrite Hx.
Qed.

Lemma match_datetime_string (sep : ascii) (tsep : token) (y m d H M : Z)
    (aY am ad aH aM : list (list cclass)) :
  directive "Y" = Some aY -> directive "m" = Some am ->
  directive "d" = Some ad -> directive "H" = Some aH ->
  directive "M" = Some aM ->
  (sep = "T"%char /\ tsep = TLit "T") \/ (sep = " "%char /\ tsep = TSpaces) ->
  0 <= y <= 9999 -> 1 <= m <= 12 -> 1 <= d <= 31 ->
  0 <= H <= 23 -> 0 <= M <= 59 ->
  match_tokens
    [TGroup "Y" aY; TLit "-"; TGroup "m" am; TLit "-"; TGroup "d" ad; tsep;
     TGroup "H" aH; TLit ":"; TGroup "M" aM]
    (datetime_string sep y m d H M) []
  = Some (timed_groups y m d H M, []).
Proof.
  intros EY Em Ed EH EM Hsep Hy Hm Hd HH HM.
  assert (EY' := EY). vm_compute in EY'. injection EY' as <-.
  unfold datetime_string, date_string, time_string.
  rewrite <- (app_nil_r (two_digits M)).
  repeat (rewrite <- app_assoc; cbn [app]).
  rewrite match_tokens_group. apply match_year_group; [exact Hy|].
  rewrite match_tokens_lit by reflexivity.
  rewrite match_tokens_group. apply match_month_group; [exact Em|exact Hm|].
  rewrite match_tokens_lit by reflexivity.
  rewrite match_tokens_group. apply match_day_group; [exact Ed|exact Hd|].
  assert (Hstep : forall g res,
            match_tokens [TGroup "H" aH; TLit ":"; TGroup "M" aM]
              (two_digits H ++ ":"%char :: two_digits M ++ []) g = Some res ->
            match_tokens [tsep; TGroup "H" aH; TLit ":"; TGroup "M" aM]
              (sep :: two_digits H ++ ":"%char :: two_digits M ++ []) g
            = Some res).
  { intros g res Hres. destruct Hsep as [[-> ->]|[-> ->]].
    - now rewrite match_tokens_lit by reflexivity.
    - apply match_tokens_spaces_one; [|exact Hres].
      destruct (two_digits_decomp H ltac:(lia)) as (Ha & _).
      digit_facts (H / 10) Ha. exact Hs. }
  apply Hstep.
  rewrite match_tokens_group. apply match_hour_group; [exact EH|exact HH|].
  rewrite match_tokens_lit by reflexivity.
  rewrite match_tokens_group. apply match_minute_group; [exact EM|exact HM|].
  reflexivity.
Qed.

Lemma datetime_string_selects_format (sep : ascii) (y m d H M : Z) :
  sep = "T"%char \/ sep = " "%char ->
  0 <= y <= 9999 -> 0 <= m <= 99 -> 0 <= d <= 99 ->
  0 <= H <= 99 -> 0 <= M <= 99 ->
  strip (datetime_string sep y m d H M) = datetime_string sep y m d H M /\
  contains "T" (datetime_string sep y m d H M) = Ascii.eqb sep "T" /\
  contains " " (datetime_string sep y m d H M) = Ascii.eqb sep " ".
Proof.
  intros Hsep Hy Hm Hd HH HM.
  destruct (four_digits_decomp y Hy) as (Ha & Hb & Hc & He & _).
  destruct (two_digits_decomp m Hm) as (Hm1 & Hm2 & _).
  destruct (two_digits_decomp d Hd) as (Hd1 & Hd2 & _).
  destruct (two_digits_decomp H HH) as (HH1 & HH2 & _).
  destruct (two_digits_decomp M HM) as (HM1 & HM2 & _).
  unfold datetime_string, time_string, date_string, four_digits, two_digits.
  digit_facts (y / 1000) Ha. digit_facts (y / 100 mod 10) Hb.
  digit_facts (y / 10 mod 10) Hc. digit_facts (y mod 10) He.
  digit_facts (m / 10) Hm1. digit_facts (m mod 10) Hm2.
  digit_facts (d / 10) Hd1. digit_facts (d mod 10) Hd2.
  digit_facts (H / 10) HH1. digit_facts (H mod 10) HH2.
  digit_facts (M / 10) HM1. digit_facts (M mod 10) HM2.
  cbn [app].
  split; [|split].
  - unfold strip.
    match goal with
    | |- strip_with _ (?a :: ?l) = _ =>
        let r := eval cbn [removelast] in (removelast l) in
        change (a :: l) with (a :: r ++ [digit_char (M mod 10)])
    end.
    now rewrite strip_with_id.
  - cbn [contains existsb].
    repeat match goal with
           | E : Ascii.eqb "T" _ = false |- _ => rewrite E; clear E
           end.
    destruct Hsep as [-> | ->]; reflexivity.
  - cbn [contains existsb].
    repeat match goal with
           | E : Ascii.eqb " " _ = false |- _ => rewrite E; clear E
           end.
    destruct Hsep as [-> | ->]; reflexivity.
Qed.

(** A valid date and time, written [YYYY-MM-DDTHH:MM] or
    [YYYY-MM-DD HH:MM], parses to that minute with the time flag true. *)
Lemma parse_date_timed (sep : ascii) (y m d H M : Z) :
  sep = "T"%char \/ sep = " "%char ->
  1 <= y <= 9999 -> 1 <= m <= 12 -> 1 <= d <= days_in_month y m ->
  0 <= H <= 23 -> 0 <= M <= 59 ->
  parse_date (datetime_string sep y m d H M)
    = Ok (mk_datetime y m d H M 0 0, true).
Proof.
  intros Hsep Hy Hm Hd HH HM. pose proof (days_in_month_le_31 y m) as H31.
  destruct (datetime_string_selects_format sep y m d H M Hsep)
    as (Hs & HT & Hsp); try lia.
  pose proof parse_date_patterns as P. cbv zeta in P.
  destruct P as (PT & Psp & _).
  assert (E : strptime (datetime_string sep y m d H M)
                (if Ascii.eqb sep "T" then py "%Y-%m-%dT%H:%M"
                 else py "%Y-%m-%d %H:%M")
              = Ok (mk_datetime y m d H M 0 0)).
  { unfold strptime.
    assert (Em : exists ts,
              pattern false (if Ascii.eqb sep "T" then py "%Y-%m-%dT%H:%M"
                             else py "%Y-%m-%d %H:%M") = Some ts /\
              match_tokens ts (datetime_string sep y m d H M) []
                = Some (timed_groups y m d H M, [])).
    { destruct Hsep as [-> | ->]; cbn [Ascii.eqb Bool.eqb];
        eexists; (split; [eassumption|]);
        apply (match_datetime_string _ _ y m d H M);
        try reflexivity; try lia; auto. }
    destruct Em as (ts & -> & ->).
    unfold group_int, timed_groups. cbn [group Ascii.eqb Bool.eqb].
    rewrite int_four_digits, !int_two_digits by lia. cbn [bind].
    unfold datetime_new.
    repeat match goal with
           | |- context [?a <=? ?b] =>
               replace (a <=? b) with true by (symmetry; apply Z.leb_le; lia)
           end.
    reflexivity. }
  unfold parse_date. rewrite Hs, HT, Hsp.
  destruct Hsep as [-> | ->]; cbn [Ascii.eqb Bool.eqb orb] in *;
    now rewrite E.
Qed.

(** * Further properties of the script *)

(** ** The calendar lookup *)

Lemma str_eqb_eq (a b : str) : str_eqb a b = true <-> a = b.
Proof.
  revert b. induction a as [|x a IH]; intros [|y b]; simpl;
    try (split; congruence).
  rewrite andb_true_iff, Ascii.eqb_eq, IH. split.
  - intros [-> ->]. reflexivity.
  - intros H. injection H as -> ->. auto.
Qed.

Lemma str_eqb_neq (a b : str) : str_eqb a b = false <-> a <> b.
Proof.
  rewrite <- str_eqb_eq. destruct (str_eqb a b); split; congruence.
Qed.

Lemma resolve_calendar_none (store : EKEventStore) (name : str) :
  resolve_calendar_by_name store name = None <->
  forall c, In c store -> cal_title c <> name.
Proof.
  unfold resolve_calendar_by_name. split.
  - intros H c Hc. apply str_eqb_neq. apply (find_none _ _ H c Hc).
  - intros H. induction store as [|c store IH]; simpl; [reflexivity|].
    destruct (str_eqb (cal_title c) name) eqn:E.
    + apply str_eqb_eq in E. destruct (H c); [now left|exact E].
    + apply IH. intros c' Hc'. apply H. now right.
Qed.

(** X1. [resolve_calendar_by_name] returns the first calendar of the
    store whose title is the name: a calendar is returned exactly when
    it stands in the store with that title and no calendar before it has
    the title. *)
Theorem resolve_calendar_first_match (store : EKEventStore) (name : str)
    (cal : EKCalendar) :
  resolve_calendar_by_name store name = Some cal <->
  exists before after,
    store = before ++ cal :: after /\ cal_title cal = name /\
    forall c, In c before -> cal_title c <> name.
Proof.
  unfold resolve_calendar_by_name. split.
  - induction store as [|c store IH]; simpl; [discriminate|].
    destruct (str_eqb (cal_title c) name) eqn:E.
    + intros H. injection H as ->. apply str_eqb_eq in E.
      exists [], store. repeat split; [exact E|]. intros c' [].
    + intros H. destruct (IH H) as (before & after & -> & Ht & Hb).
      exists (c :: before), after. repeat split; [exact Ht|].
      intros c' [<-|Hc']; [now apply str_eqb_neq|auto].
  - intros (before & after & -> & Ht & Hb).
    induction before as [|c before IH]; simpl.
    + apply str_eqb_eq in Ht. now rewrite Ht.
    + assert (E : str_eqb (cal_title c) name = false)
        by (apply str_eqb_neq, Hb; now left).
      rewrite E. apply IH. intros c' Hc'. apply Hb. now right.
Qed.

(** ** The order of the diagnostics of [main] *)

Lemma resolve_end_stop (a : args) (start : datetime) (wti : bool) (o : outcome) :
  resolve_end a start wti = Stop o ->
  (o = Exit1 InvalidEndDateFormat /\ end_date a <> [] /\
   parse_date (end_date a) = Raise ValueError) \/
  (end_date a = [] /\ duration a <> [] /\ wti = true /\
   ((o = Exit1 InvalidDurationFormat /\
     parse_duration (duration a) = Raise ValueError) \/
    (exists e, o = Uncaught e /\ e <> ValueError /\
               parse_duration (duration a) = Raise e) \/
    (exists d, o = Uncaught OverflowError /\
               parse_duration (duration a) = Ok d /\
               datetime_add start d = Raise OverflowError))).
Proof.
  unfold resolve_end.
  destruct (truthy (end_date a)) eqn:Te.
  - apply truthy_true in Te.
    destruct (parse_date (end_date a)) as [[e f]|x] eqn:E; simpl;
      [discriminate|].
    rewrite (parse_date_raises _ _ E). intros H. injection H as <-.
    left. rewrite (parse_date_raises _ _ E) in E. auto.
  - apply truthy_false in Te.
    destruct (truthy (duration a)) eqn:Td; simpl; [|discriminate].
    apply truthy_true in Td. destruct wti; [|discriminate].
    intros H. right. repeat split; try assumption.
    destruct (parse_duration (duration a)) as [d|x] eqn:E; simpl in H.
    + destruct (datetime_add start d) as [r|x] eqn:Ea; [discriminate|].
      injection H as <-. right. right. exists d.
      assert (x = OverflowError).
      { unfold datetime_add in Ea. destruct (_ && _) in Ea.
        - destruct (ord2ymd _) as [[? ?] ?]. discriminate.
        - congruence. }
      subst x. auto.
    + destruct x; injection H as <-.
      * left. auto.
      * right. left. exists IndexError. repeat split; auto; discriminate.
      * right. left. exists OverflowError. repeat split; auto; discriminate.
Qed.

Lemma validate_cases cal t s wti e eti :
  validate cal t s wti e eti = Exit1 InconsistentTimeSpecification \/
  validate cal t s wti e eti = Exit1 EndBeforeStart \/
  validate cal t s wti e eti = CreateEvent cal (negb wti) s e t.
Proof.
  unfold validate. destruct (wti && negb eti); [auto|].
  destruct (datetime_lt e s); auto.
Qed.

(** X2. The calendar is looked up before anything is parsed: the run
    ends with "Couldn't find a calendar" exactly when no calendar of the
    store has the requested title, whatever the other arguments hold. *)
Theorem calendar_not_found_iff (store : EKEventStore) (a : args) :
  main store a = Exit1 CalendarNotFound <->
  forall c, In c store -> cal_title c <> calendar a.
Proof.
  rewrite <- resolve_calendar_none. unfold main.
  destruct (resolve_calendar_by_name store (calendar a)) as [cal|];
    [|split; reflexivity].
  split; [|discriminate]. intros H. exfalso.
  destruct (parse_date (date a)) as [[start wti]|x] eqn:Es; simpl in H.
  - destruct (resolve_end a start wti) as [[e eti]|o] eqn:Er.
    + destruct (validate_cases cal (title a) start wti e eti)
        as [V|[V|V]]; rewrite V in H; discriminate.
    + apply resolve_end_stop in Er.
      destruct Er as [(-> & _)|(_ & _ & _ & [(-> & _)|[(x & -> & _)|(d & -> & _)]])];
        discriminate.
  - rewrite (parse_date_raises _ _ Es) in H. discriminate.
Qed.

(** X3. Once the calendar is found, the start date is parsed before the
    end date or the duration is looked at: the run ends with "Error
    parsing date" exactly when the calendar exists and [parse_date]
    rejects the start string. *)
Theorem invalid_start_date_iff (store : EKEventStore) (a : args) :
  main store a = Exit1 InvalidDateFormat <->
  (exists cal, resolve_calendar_by_name store (calendar a) = Some cal) /\
  parse_date (date a) = Raise ValueError.
Proof.
  unfold main.
  destruct (resolve_calendar_by_name store (calendar a)) as [cal|].
  - destruct (parse_date (date a)) as [[start wti]|x] eqn:Es; simpl.
    + split; [|intros [_ H]; discriminate]. intros H. exfalso.
      destruct (resolve_end a start wti) as [[e eti]|o] eqn:Er.
      * destruct (validate_cases cal (title a) start wti e eti)
          as [V|[V|V]]; rewrite V in H; discriminate.
      * apply resolve_end_stop in Er.
        destruct Er as [(-> & _)|(_ & _ & _ & [(-> & _)|[(x & -> & _)|(d & -> & _)]])];
          discriminate.
    + rewrite (parse_date_raises _ _ Es). split; eauto.
  - split; [discriminate|]. intros [[cal H] _]. discriminate.
Qed.

(** The lookup and the start date come first, whatever else is wrong. *)
Example diagnostics_order_examples :
  main store_home args_unknown_calendar = Exit1 CalendarNotFound /\
  main store_home args_bad_date = Exit1 InvalidDateFormat /\
  main [] args_all_day = Exit1 CalendarNotFound.
Proof. repeat split. Qed.



(** ** The values [parse_date] returns *)

Lemma datetime_new_ok y m d H M S us dt :
  datetime_new y m d H M S us = Ok dt ->
  dt = mk_datetime y m d H M S us /\ valid_datetime dt.
Proof.
  unfold datetime_new. destruct (_ && _) eqn:E; [|discriminate].
  intros Hdt. injection Hdt as <-. split; [reflexivity|].
  repeat (apply andb_true_iff in E; destruct E as [E ?]).
  unfold valid_datetime. simpl.
  repeat match goal with
         | H : (_ <=? _) = true |- _ => apply Z.leb_le in H
         end.
  lia.
Qed.

Lemma strptime_ok (data_string format : str) (dt : datetime) :
  strptime data_string format = Ok dt ->
  valid_datetime dt /\ second dt = 0 /\ microsecond dt = 0.
Proof.
  unfold strptime.
  destruct (pattern false format) as [ts|]; [|discriminate].
  destruct (match_tokens ts data_string []) as [[g [|c r]]|]; try discriminate.
  repeat match goal with
         | |- context [group_int ?n ?d g] =>
             destruct (group_int n d g); simpl; [|discriminate]
         end.
  intros H. apply datetime_new_ok in H. destruct H as [-> H]. auto.
Qed.

Lemma parse_date_ok (s : str) (dt : datetime) (flag : bool) :
  parse_date s = Ok (dt, flag) ->
  valid_datetime dt /\ second dt = 0 /\ microsecond dt = 0.
Proof.
  unfold parse_date.
  destruct (contains "T" (strip s) || contains " " (strip s));
    match goal with
    | |- context [strptime ?d ?f] =>
        destruct (strptime d f) as [dt'|] eqn:E; simpl; [|discriminate]
    end;
    intros H; injection H as <- _; exact (strptime_ok _ _ _ E).
Qed.

(** X5. Every value [parse_date] returns is a date and time the
    [datetime] constructor accepts (year 1..9999, a day that exists in
    its month, hour 0..23, minute 0..59), with second and microsecond
    zero. *)
Theorem parse_date_valid (s : str) (dt : datetime) (flag : bool) :
  parse_date s = Ok (dt, flag) ->
  valid_datetime dt /\ second dt = 0 /\ microsecond dt = 0.
Proof. apply parse_date_ok. Qed.

Lemma parse_date_valid_witness :
  valid_datetime (mk_datetime 2024 2 29 23 59 0 0) /\
  second (mk_datetime 2024 2 29 23 59 0 0) = 0 /\
  microsecond (mk_datetime 2024 2 29 23 59 0 0) = 0.
Proof.
  apply (parse_date_valid (py "2024-02-29 23:59") _ true). reflexivity.
Defined.

(** ** The shapes of a duration *)

(** X6. [parse_duration] is invariant under trimming: white space added
    around the string changes neither the result nor the exception. *)
Theorem parse_duration_trim_invariant (s pre post : str) :
  forallb isspace pre = true -> forallb isspace post = true ->
  parse_duration (pre ++ s ++ post) = parse_duration s /\
  parse_duration (strip s) = parse_duration s.
Proof.
  intros Hpre Hpost. unfold parse_duration.
  replace (strip (pre ++ s ++ post)) with (strip s)
    by (symmetry; now apply strip_with_padded).
  now rewrite strip_idem.
Qed.

Lemma parse_duration_trim_invariant_witness :
  parse_duration (py " " ++ py "1:30" ++ py "  ") = parse_duration (py "1:30") /\
  parse_duration (strip (py "1:30")) = parse_duration (py "1:30").
Proof.
  apply (parse_duration_trim_invariant (py "1:30") (py " ") (py "  "));
    reflexivity.
Defined.

Lemma dropwhile_prefix (p : ascii -> bool) (s : str) :
  exists pre, s = pre ++ dropwhile p s /\ forallb p pre = true.
Proof.
  induction s as [|c s (pre & E & H)]; simpl.
  - now exists [].
  - destruct (p c) eqn:Ec.
    + exists (c :: pre). simpl. rewrite Ec, H. split; [now f_equal|reflexivity].
    + now exists [].
Qed.

Lemma rstrip_with_suffix (p : ascii -> bool) (s : str) :
  exists post, s = rstrip_with p s ++ post /\ forallb p post = true.
Proof.
  unfold rstrip_with. destruct (dropwhile_prefix p (rev s)) as (pre & E & H).
  exists (rev pre). rewrite forallb_rev. split; [|exact H].
  rewrite <- rev_app_distr, <- E. symmetry. apply rev_involutive.
Qed.

Lemma strip_with_split (p : ascii -> bool) (s : str) :
  exists pre post,
    s = pre ++ strip_with p s ++ post /\
    forallb p pre = true /\ forallb p post = true.
Proof.
  unfold strip_with, lstrip_with.
  destruct (dropwhile_prefix p s) as (pre & E & Hpre).
  destruct (rstrip_with_suffix p (dropwhile p s)) as (post & E' & Hpost).
  exists pre, post. repeat split; try assumption.
  rewrite <- E'. exact E.
Qed.

Lemma rstrip_with_app (p : ascii -> bool) (l l' : str) :
  rstrip_with p (l ++ l') =
    if forallb p l' then rstrip_with p l else l ++ rstrip_with p l'.
Proof.
  unfold rstrip_with. rewrite rev_app_distr, dropwhile_app, forallb_rev.
  destruct (forallb p l'); [reflexivity|].
  now rewrite rev_app_distr, rev_involutive.
Qed.

Lemma rstrip_with_last (p : ascii -> bool) (l : str) (b : ascii) :
  p b = false -> rstrip_with p (l ++ [b]) = l ++ [b].
Proof.
  intros H. rewrite rstrip_with_app. simpl. rewrite H. simpl.
  unfold rstrip_with. simpl. now rewrite H.
Qed.

(** The characters of an integer literal and the classes of white space. *)
Lemma char_classes (c : ascii) :
  (int_space c = true -> isspace c = true) /\
  (isdigit c = true \/ c = "_"%char \/ c = "+"%char \/ c = "-"%char ->
   isspace c = false /\ int_space c = false /\ Ascii.eqb ":" c = false).
Proof.
  destruct c as [[] [] [] [] [] [] [] []]; vm_compute;
    (split; [congruence|]);
    intros [H|[H|[H|H]]]; try discriminate H; auto.
Qed.

Lemma int_digits_chars (s : str) : forall us acc v,
  int_digits us acc s = Some v ->
  forall c, In c s -> isdigit c = true \/ c = "_"%char.
Proof.
  induction s as [|x s IH]; simpl; intros us acc v H c Hc; [destruct Hc|].
  destruct (isdigit x) eqn:Ed.
  - destruct Hc as [<-|Hc]; [now left|eauto].
  - destruct (Ascii.eqb x "_") eqn:Eu; [|discriminate].
    apply Ascii.eqb_eq in Eu. destruct us; [discriminate|].
    destruct Hc as [<-|Hc]; [now right|eauto].
Qed.

Lemma int_digits_last (s : str) (b : ascii) : forall us acc v,
  int_digits us acc (s ++ [b]) = Some v -> isdigit b = true.
Proof.
  induction s as [|x s IH]; simpl; intros us acc v H.
  - destruct (isdigit b); [reflexivity|].
    destruct (Ascii.eqb b "_"); [|discriminate]. destruct us; discriminate.
  - destruct (isdigit x); [eauto|].
    destruct (Ascii.eqb x "_"); [|discriminate].
    destruct us; [discriminate|eauto].
Qed.

Lemma int_unsigned_shape (s : str) (v : Z) :
  int_unsigned s = Some v ->
  (forall c, In c s -> isdigit c = true \/ c = "_"%char) /\
  (exists x t, s = x :: t /\ isdigit x = true) /\
  (forall l b, s = l ++ [b] -> isdigit b = true).
Proof.
  destruct s as [|x t]; simpl; [discriminate|].
  destruct (isdigit x) eqn:Ed; [|discriminate]. intros H. repeat split.
  - intros c [<-|Hc]; [now left|]. eapply int_digits_chars; eauto.
  - eauto.
  - intros l b E. destruct l as [|y l]; simpl in E; injection E as <- E.
    + now subst.
    + subst t. eapply int_digits_last; eauto.
Qed.

Lemma int_signed_shape (s : str) (v : Z) :
  int_signed s = Some v ->
  (forall c, In c s ->
     isdigit c = true \/ c = "_"%char \/ c = "+"%char \/ c = "-"%char) /\
  (exists x t, s = x :: t /\ isspace x = false) /\
  (forall l b, s = l ++ [b] -> isspace b = false).
Proof.
  assert (Hd : forall c, isdigit c = true -> isspace c = false)
    by (intros c H; apply char_classes; auto).
  destruct s as [|x t]; [discriminate|]. unfold int_signed.
  assert (Hsign : forall w, (x = "-"%char \/ x = "+"%char) ->
            int_unsigned t = Some w ->
            (forall c, In c (x :: t) ->
               isdigit c = true \/ c = "_"%char \/ c = "+"%char \/ c = "-"%char) /\
            (exists x0 t0, x :: t = x0 :: t0 /\ isspace x0 = false) /\
            (forall l b, x :: t = l ++ [b] -> isspace b = false)).
  { intros w Hx Hu. destruct (int_unsigned_shape _ _ Hu) as (Hc & _ & Hl).
    repeat split.
    - intros c [<-|Hin]; [tauto|]. destruct (Hc c Hin); tauto.
    - exists x, t. split; [reflexivity|]. apply char_classes. tauto.
    - intros l b E. destruct l as [|y l]; simpl in E; injection E as <- E.
      + subst t. discriminate.
      + apply Hd. eapply Hl; eauto. }
  destruct (Ascii.eqb x "-") eqn:Em.
  - apply Ascii.eqb_eq in Em. destruct (int_unsigned t) eqn:Eu; [|discriminate].
    intros _. eapply Hsign; eauto.
  - destruct (Ascii.eqb x "+") eqn:Ep.
    + apply Ascii.eqb_eq in Ep. intros Hu. eapply Hsign; eauto.
    + intros Hu. destruct (int_unsigned_shape _ _ Hu) as (Hc & (y & u & E & Hy) & Hl).
      repeat split.
      * intros c Hin. destruct (Hc c Hin); tauto.
      * exists y, u. auto.
      * intros l b El. apply Hd. eauto.
Qed.

Lemma int_space_isspace (l : str) :
  forallb int_space l = true -> forallb isspace l = true.
Proof.
  rewrite !forallb_forall. intros H c Hc. apply char_classes. auto.
Qed.

(** What [int] accepts: white space, then a signed literal, then white
    space. *)
Lemma int_ok_split (s : str) (v : Z) :
  int s = Ok v ->
  exists pre core post,
    s = pre ++ core ++ post /\
    forallb int_space pre = true /\ forallb int_space post = true /\
    int_signed core = Some v /\ strip_with int_space core = core.
Proof.
  unfold int. destruct (int_signed (strip_with int_space s)) as [w|] eqn:E;
    [|discriminate].
  intros H. injection H as ->.
  destruct (strip_with_split int_space s) as (pre & post & Es & Hpre & Hpost).
  exists pre, (strip_with int_space s), post.
  repeat split; auto. apply strip_with_idem.
Qed.

Lemma int_of_padded (pre core post : str) (v : Z) :
  forallb int_space pre = true -> forallb int_space post = true ->
  int_signed core = Some v -> strip_with int_space core = core ->
  int (pre ++ core ++ post) = Ok v.
Proof.
  intros Hpre Hpost Hv Hc. unfold int.
  now rewrite (strip_with_padded _ _ _ _ Hpre Hpost), Hc, Hv.
Qed.

Lemma int_lstrip (s : str) (v : Z) :
  int s = Ok v ->
  int (dropwhile isspace s) = Ok v /\ forallb isspace s = false.
Proof.
  intros H.
  destruct (int_ok_split _ _ H) as (pre & core & post & -> & Hpre & Hpost & Hv & Hc).
  destruct (int_signed_shape _ _ Hv) as (_ & (x & t & -> & Hx) & _).
  pose proof (int_space_isspace _ Hpre) as Hpre'.
  rewrite dropwhile_app, forallb_app, Hpre'. simpl. rewrite Hx. split.
  - apply (int_of_padded [] (x :: t) post); auto.
  - reflexivity.
Qed.

Lemma int_rstrip (s : str) (v : Z) :
  int s = Ok v ->
  int (rstrip_with isspace s) = Ok v /\ forallb isspace s = false.
Proof.
  intros H. split; [|apply (int_lstrip _ _ H)].
  destruct (int_ok_split _ _ H) as (pre & core & post & -> & Hpre & Hpost & Hv & Hc).
  destruct (int_signed_shape _ _ Hv) as (_ & (x & t & E & _) & Hl).
  destruct (exists_last (l := core)) as (l & b & El); [congruence|].
  pose proof (Hl _ _ El) as Hb.
  rewrite app_assoc, rstrip_with_app, (int_space_isspace _ Hpost).
  rewrite El, app_assoc, rstrip_with_last by exact Hb.
  rewrite <- app_assoc, <- El.
  rewrite <- (app_nil_r core) at 1. apply int_of_padded; auto.
Qed.

Lemma int_no_colon (s : str) (v : Z) : int s = Ok v -> contains ":" s = false.
Proof.
  intros H.
  destruct (int_ok_split _ _ H) as (pre & core & post & -> & Hpre & Hpost & Hv & _).
  destruct (int_signed_shape _ _ Hv) as (Hchars & _).
  unfold contains. rewrite !existsb_app. apply orb_false_iff. split;
    [|apply orb_false_iff; split].
  - destruct (existsb _ pre) eqn:E; [|reflexivity].
    apply existsb_exists in E. destruct E as (c & Hin & Ec).
    apply Ascii.eqb_eq in Ec. subst c.
    rewrite forallb_forall in Hpre. now specialize (Hpre _ Hin).
  - destruct (existsb _ core) eqn:E; [|reflexivity].
    apply existsb_exists in E. destruct E as (c & Hin & Ec).
    apply Ascii.eqb_eq in Ec. subst c.
    destruct (Hchars _ Hin) as [D|[D|[D|D]]]; discriminate.
  - destruct (existsb _ post) eqn:E; [|reflexivity].
    apply existsb_exists in E. destruct E as (c & Hin & Ec).
    apply Ascii.eqb_eq in Ec. subst c.
    rewrite forallb_forall in Hpost. now specialize (Hpost _ Hin).
Qed.

Lemma split_no_sep (sep : ascii) (s : str) :
  contains sep s = false -> split sep s = [s].
Proof.
  unfold contains. induction s as [|c s IH]; simpl; [reflexivity|].
  intros H. apply orb_false_iff in H. destruct H as [Hc Hs].
  rewrite Ascii.eqb_sym, Hc, (IH Hs). reflexivity.
Qed.

Lemma split_app_sep (sep : ascii) (l r : str) :
  contains sep l = false -> split sep (l ++ sep :: r) = l :: split sep r.
Proof.
  unfold contains. induction l as [|c l IH]; simpl.
  - intros _. now rewrite Ascii.eqb_refl.
  - intros H. apply orb_false_iff in H. destruct H as [Hc Hl].
    rewrite Ascii.eqb_sym, Hc, (IH Hl). reflexivity.
Qed.

Lemma split_length (sep : ascii) (s : str) :
  List.length (split sep s) = S (count_occ ascii_dec s sep).
Proof.
  induction s as [|c s IH]; simpl; [reflexivity|].
  destruct (ascii_dec c sep) as [->|Hn].
  - rewrite Ascii.eqb_refl. simpl. now rewrite IH.
  - apply Ascii.eqb_neq in Hn. rewrite Hn.
    destruct (split sep s); simpl in *; [discriminate|exact IH].
Qed.

Lemma contains_count (c : ascii) (s : str) :
  contains c s = true <-> (count_occ ascii_dec s c > 0)%nat.
Proof. rewrite contains_true_iff. apply count_occ_In. Qed.

Lemma parse_duration_suffix (p : str) (u : ascii) (n : Z) :
  isspace u = false -> Ascii.eqb ":" u = false ->
  int p = Ok n ->
  strip (p ++ [u]) = dropwhile isspace p ++ [u] /\
  contains ":" (dropwhile isspace p ++ [u]) = false /\
  int (dropwhile isspace p) = Ok n.
Proof.
  intros Hu Hc Hp. destruct (int_lstrip _ _ Hp) as [Hl Hns].
  repeat split; [| |exact Hl].
  - unfold strip, strip_with, lstrip_with.
    rewrite dropwhile_app, Hns. now apply rstrip_with_last.
  - unfold contains. rewrite existsb_app. cbn [existsb]. rewrite Hc.
    apply int_no_colon in Hl. unfold contains in Hl. now rewrite Hl.
Qed.

Lemma parse_duration_minutes (p : str) (n : Z) :
  int p = Ok n -> parse_duration (p ++ py "m") = timedelta_new 0 n.
Proof.
  intros Hp.
  destruct (parse_duration_suffix p "m" n eq_refl eq_refl Hp) as (Es & Hc & Hi).
  unfold parse_duration, last_char, but_last. change (py "m") with ["m"%char].
  rewrite Es, Hc, rev_app_distr, removelast_last. simpl. now rewrite Hi.
Qed.

Lemma parse_duration_hours (p : str) (n : Z) :
  int p = Ok n -> parse_duration (p ++ py "h") = timedelta_new n 0.
Proof.
  intros Hp.
  destruct (parse_duration_suffix p "h" n eq_refl eq_refl Hp) as (Es & Hc & Hi).
  unfold parse_duration, last_char, but_last. change (py "h") with ["h"%char].
  rewrite Es, Hc, rev_app_distr, removelast_last. simpl. now rewrite Hi.
Qed.

Lemma parse_duration_colon (hs ms : str) (h m : Z) :
  int hs = Ok h -> int ms = Ok m ->
  parse_duration (hs ++ py ":" ++ ms) = timedelta_new h m.
Proof.
  intros Hh Hm. change (py ":" ++ ms) with (":"%char :: ms).
  destruct (int_lstrip _ _ Hh) as [Hl Hns].
  destruct (int_rstrip _ _ Hm) as [Hr Hns'].
  assert (Es : strip (hs ++ ":"%char :: ms)
               = dropwhile isspace hs ++ ":"%char :: rstrip_with isspace ms).
  { unfold strip, strip_with, lstrip_with. rewrite dropwhile_app, Hns.
    change (dropwhile isspace hs ++ ":"%char :: ms)
      with (dropwhile isspace hs ++ [":"%char] ++ ms).
    rewrite app_assoc, rstrip_with_app, Hns', <- app_assoc. reflexivity. }
  unfold parse_duration. rewrite Es.
  assert (Hc : contains ":" (dropwhile isspace hs ++ ":"%char :: rstrip_with isspace ms)
               = true) by (apply contains_true_iff, in_or_app; right; now left).
  rewrite Hc, split_app_sep by (now apply int_no_colon in Hl).
  rewrite split_no_sep by (now apply int_no_colon in Hr).
  now rewrite Hl, Hr.
Qed.

(** X7. What the three shapes denote.  For strings [hs] and [ms] that
    [int] reads as [h] and [m] (white space around the digits, a sign and
    single underscores allowed): ["hs:ms"] is [h] hours and [m] minutes,
    ["msm"] is [m] minutes, ["hsh"] is [h] hours, each as the [timedelta]
    constructor builds it. *)
Theorem parse_duration_value (hs ms : str) (h m : Z) :
  int hs = Ok h -> int ms = Ok m ->
  parse_duration (hs ++ py ":" ++ ms) = timedelta_new h m /\
  parse_duration (ms ++ py "m") = timedelta_new 0 m /\
  parse_duration (hs ++ py "h") = timedelta_new h 0 /\
  (forall td, parse_duration (hs ++ py ":" ++ ms) = Ok td ->
              total_seconds td = h * 3600 + m * 60).
Proof.
  intros Hh Hm. repeat split.
  - now apply parse_duration_colon.
  - now apply parse_duration_minutes.
  - now apply parse_duration_hours.
  - intros td. rewrite (parse_duration_colon _ _ _ _ Hh Hm).
    intros H. now apply timedelta_new_total in H.
Qed.

Lemma parse_duration_value_witness :
  parse_duration (py " 1" ++ py ":" ++ py "30 ") = timedelta_new 1 30 /\
  parse_duration (py "30 " ++ py "m") = timedelta_new 0 30 /\
  parse_duration (py " 1" ++ py "h") = timedelta_new 1 0 /\
  (forall td, parse_duration (py " 1" ++ py ":" ++ py "30 ") = Ok td ->
              total_seconds td = 1 * 3600 + 30 * 60).
Proof.
  apply (parse_duration_value (py " 1") (py "30 ") 1 30); reflexivity.
Defined.

(** X8. The shapes agree: ["hs:ms"] gives what the minutes form gives on
    a string read as [60 * h + m], and the hours form on [n] gives what
    the minutes form gives on a string read as [60 * n] (["1:30"] and
    ["90m"], ["2h"] and ["120m"]). *)
Theorem parse_duration_shapes_agree (hs ms q : str) (h m : Z) :
  int hs = Ok h -> int ms = Ok m -> int q = Ok (60 * h + m) ->
  parse_duration (hs ++ py ":" ++ ms) = parse_duration (q ++ py "m") /\
  (m = 0 -> parse_duration (hs ++ py "h") = parse_duration (q ++ py "m")).
Proof.
  intros Hh Hm Hq.
  rewrite (parse_duration_colon _ _ _ _ Hh Hm), (parse_duration_minutes _ _ Hq),
    (parse_duration_hours _ _ Hh).
  unfold timedelta_new.
  replace ((60 * h + m) * 60 + 0 * 3600) with (m * 60 + h * 3600) by lia.
  split; [reflexivity|]. intros ->.
  replace (0 * 60 + h * 3600) with (0 * 60 + h * 3600 + 0) by lia.
  reflexivity.
Qed.

Lemma parse_duration_shapes_agree_witness :
  parse_duration (py "1" ++ py ":" ++ py "30") = parse_duration (py "90" ++ py "m") /\
  (30 = 0 -> parse_duration (py "1" ++ py "h") = parse_duration (py "90" ++ py "m")).
Proof.
  apply (parse_duration_shapes_agree (py "1") (py "30") (py "90") 1 30);
    reflexivity.
Defined.

(** X9. A duration with two or more colons is never accepted: the
    split gives three parts or more, the unpacking into hours and
    minutes fails, and [parse_duration] raises [ValueError]. *)
Theorem parse_duration_two_colons (s : str) :
  (count_occ ascii_dec (strip s) ":"%char >= 2)%nat ->
  parse_duration s = Raise ValueError.
Proof.
  intros H. unfold parse_duration.
  assert (Hc : contains ":" (strip s) = true) by (apply contains_count; lia).
  rewrite Hc. pose proof (split_length ":" (strip s)) as Hl.
  destruct (split ":" (strip s)) as [|a [|b [|c r]]]; simpl in Hl;
    try reflexivity; lia.
Qed.

Lemma parse_duration_two_colons_witness :
  parse_duration (py "1:30:00") = Raise ValueError.
Proof. apply parse_duration_two_colons. vm_compute. lia. Defined.

(** ** The calendar arithmetic behind [start + duration] *)

Ltac div_mod_lia := Z.div_mod_to_equations; lia.

Lemma is_leap_true (y : Z) :
  is_leap y = true <-> y mod 4 = 0 /\ (y mod 100 <> 0 \/ y mod 400 = 0).
Proof.
  unfold is_leap.
  rewrite andb_true_iff, orb_true_iff, negb_true_iff, !Z.eqb_eq, Z.eqb_neq.
  tauto.
Qed.

Lemma days_before_year_succ (y : Z) :
  days_before_year (y + 1)
    = days_before_year y + 365 + (if is_leap y then 1 else 0).
Proof.
  unfold days_before_year. replace (y + 1 - 1) with y by lia.
  destruct (is_leap y) eqn:E.
  - apply is_leap_true in E. div_mod_lia.
  - assert (N : ~ (y mod 4 = 0 /\ (y mod 100 <> 0 \/ y mod 400 = 0))).
    { rewrite <- is_leap_true. congruence. }
    div_mod_lia.
Qed.

Lemma days_before_year_mono (a b : Z) :
  a <= b -> days_before_year a <= days_before_year b.
Proof. unfold days_before_year. intros. div_mod_lia. Qed.

Lemma month_cases (m : Z) :
  1 <= m <= 12 ->
  m = 1 \/ m = 2 \/ m = 3 \/ m = 4 \/ m = 5 \/ m = 6 \/
  m = 7 \/ m = 8 \/ m = 9 \/ m = 10 \/ m = 11 \/ m = 12.
Proof. lia. Qed.

Ltac each_month m H :=
  destruct (month_cases m H) as
    [->|[->|[->|[->|[->|[->|[->|[->|[->|[->|[->| ->]]]]]]]]]]].

(** The days of the months before [m], and through [m]. *)
Lemma days_before_month_bounds (y m : Z) :
  1 <= m <= 12 ->
  0 <= days_before_month y m /\
  days_before_month y m + days_in_month y m
    = (if m =? 12 then 365 + (if is_leap y then 1 else 0)
       else days_before_month y (m + 1)).
Proof.
  intros H. unfold days_before_month, days_in_month.
  each_month m H; destruct (is_leap y); cbn; lia.
Qed.

Lemma days_before_month_mono (y m m' : Z) :
  1 <= m -> m < m' -> m' <= 12 ->
  days_before_month y m + days_in_month y m <= days_before_month y m'.
Proof.
  intros H1 H2 H3. unfold days_before_month, days_in_month.
  assert (Hm : 1 <= m <= 12) by lia. assert (Hm' : 1 <= m' <= 12) by lia.
  each_month m Hm; each_month m' Hm'; try lia; destruct (is_leap y); cbn; lia.
Qed.

Lemma ymd2ord_bounds (y m d : Z) :
  1 <= m <= 12 -> 1 <= d <= days_in_month y m ->
  days_before_year y < ymd2ord y m d <= days_before_year (y + 1).
Proof.
  intros Hm Hd. rewrite days_before_year_succ. unfold ymd2ord.
  assert (0 <= days_before_month y m /\
          days_before_month y m + days_in_month y m
            <= 365 + (if is_leap y then 1 else 0)).
  { unfold days_before_month, days_in_month.
    each_month m Hm; destruct (is_leap y); cbn; lia. }
  lia.
Qed.

(** The ordinal respects the order of valid dates. *)
Lemma ymd2ord_lt (y m d y' m' d' : Z) :
  1 <= m <= 12 -> 1 <= d <= days_in_month y m ->
  1 <= m' <= 12 -> 1 <= d' <= days_in_month y' m' ->
  y < y' \/ (y = y' /\ (m < m' \/ (m = m' /\ d < d'))) ->
  ymd2ord y m d < ymd2ord y' m' d'.
Proof.
  intros Hm Hd Hm' Hd' [Hy|[<- [Hlt|[<- Hlt]]]].
  - pose proof (ymd2ord_bounds y m d Hm Hd).
    pose proof (ymd2ord_bounds y' m' d' Hm' Hd').
    pose proof (days_before_year_mono (y + 1) y' ltac:(lia)). lia.
  - pose proof (days_before_month_mono y m m' ltac:(lia) Hlt ltac:(lia)).
    unfold ymd2ord. lia.
  - unfold ymd2ord. lia.
Qed.

Lemma naive_seconds_lt (a b : datetime) :
  valid_datetime a -> valid_datetime b ->
  microsecond a = microsecond b ->
  (datetime_lt a b = true <-> naive_seconds a < naive_seconds b).
Proof.
  assert (Hfwd : forall a b, valid_datetime a -> valid_datetime b ->
            microsecond a = microsecond b ->
            datetime_lt a b = true -> naive_seconds a < naive_seconds b).
  { clear a b. intros [y m d H M S us] [y' m' d' H' M' S' us'].
    unfold valid_datetime, datetime_lt, fields, naive_seconds, toordinal.
    cbn [year month day hour minute second microsecond lex_lt].
    intros (Hy & Hm & Hd & HH & HM & HS & Hus)
           (Hy' & Hm' & Hd' & HH' & HM' & HS' & Hus') <-.
    repeat (rewrite ?orb_true_iff, ?andb_true_iff, ?Z.ltb_lt, ?Z.eqb_eq).
    intros Hlex.
    assert (Hdate : (y < y' \/ (y = y' /\ (m < m' \/ (m = m' /\ d < d')))) \/
                    (y = y' /\ m = m' /\ d = d' /\
                     H * 3600 + M * 60 + S < H' * 3600 + M' * 60 + S')).
    { destruct Hlex as [?|[-> [?|[-> [?|[-> Ht]]]]]];
        [left; lia|left; lia|left; lia|].
      right. repeat split; try reflexivity.
      destruct Ht as [?|[-> [?|[-> [?|[-> [?|[_ ?]]]]]]]]; try lia;
        discriminate. }
    destruct Hdate as [Hdate|(-> & -> & -> & Ht)]; [|lia].
    pose proof (ymd2ord_lt y m d y' m' d' Hm Hd Hm' Hd' Hdate). lia. }
  intros Ha Hb Hus. split; [now apply Hfwd|].
  intros Hlt.
  destruct (lex_lt_total (fields a) (fields b) eq_refl) as [H|[H|H]].
  - exact H.
  - apply fields_inj in H. subst b. lia.
  - apply (Hfwd b a Hb Ha (eq_sym Hus)) in H. lia.
Qed.

(** The year [400 a + 100 b + 4 c + e + 1] in the cycles of the Gregorian
    calendar. *)
Lemma year_cycles (a b c e : Z) :
  0 <= b <= 3 -> 0 <= c <= 24 -> 0 <= e <= 3 ->
  let y := a * 400 + 1 + b * 100 + c * 4 + e in
  days_before_year y = a * 146097 + b * 36524 + c * 1461 + e * 365 /\
  is_leap y = (e =? 3) && (negb (c =? 24) || (b =? 3)).
Proof.
  intros Hb Hc He y. subst y. split.
  - unfold days_before_year. div_mod_lia.
  - destruct (is_leap _) eqn:E.
    + apply is_leap_true in E. symmetry.
      rewrite andb_true_iff, orb_true_iff, negb_true_iff, !Z.eqb_eq, Z.eqb_neq.
      div_mod_lia.
    + assert (N : ~ (e = 3 /\ (c <> 24 \/ b = 3))).
      { intros N. apply not_true_iff_false in E. apply E, is_leap_true.
        div_mod_lia. }
      symmetry. apply not_true_iff_false. intros T. apply N.
      rewrite andb_true_iff, orb_true_iff, negb_true_iff, !Z.eqb_eq, Z.eqb_neq in T.
      exact T.
Qed.

Lemma ord2ymd_spec (n : Z) :
  1 <= n <= MAXORDINAL ->
  let '(y, m, d) := ord2ymd n in
  1 <= y <= 9999 /\ 1 <= m <= 12 /\ 1 <= d <= days_in_month y m /\
  ymd2ord y m d = n.
Proof.
  unfold MAXORDINAL. intros Hn. unfold ord2ymd.
  set (a := (n - 1) / 146097).
  set (r1 := (n - 1) mod 146097).
  set (b := r1 / 36524).
  set (r2 := r1 mod 36524).
  set (c := r2 / 1461).
  set (r3 := r2 mod 1461).
  set (e := r3 / 365).
  set (f := r3 mod 365).
  assert (Hdec : n - 1 = a * 146097 + b * 36524 + c * 1461 + e * 365 + f /\
                 0 <= a <= 24 /\ 0 <= b <= 4 /\ 0 <= c <= 24 /\ 0 <= e <= 4 /\
                 0 <= f <= 364 /\
                 (b = 4 -> c = 0 /\ e = 0 /\ f = 0) /\
                 (e = 4 -> f = 0 /\ c <= 23)).
  { subst a r1 b r2 c r3 e f. div_mod_lia. }
  clearbody a r1 b r2 c r3 e f.
  destruct Hdec as (Hn0 & Ha & Hb & Hc & He & Hf & Hb4 & He4).
  cbv zeta.
  destruct ((e =? 4) || (b =? 4)) eqn:Esp.
  - (* the last day of a leap year *)
    apply orb_true_iff in Esp. rewrite !Z.eqb_eq in Esp.
    assert (Hy : exists a' b' c',
               a * 400 + 1 + b * 100 + c * 4 + e - 1
                 = a' * 400 + 1 + b' * 100 + c' * 4 + 3 /\
               0 <= b' <= 3 /\ 0 <= c' <= 24 /\ (c' <> 24 \/ b' = 3) /\
               n = a' * 146097 + b' * 36524 + c' * 1461 + 3 * 365 + 366).
    { destruct (Z.eq_dec b 4) as [Eb|Eb].
      - destruct (Hb4 Eb) as (-> & -> & ->). subst b.
        exists a, 3, 24. lia.
      - assert (e = 4) by lia. subst e. exists a, b, c. lia. }
    destruct Hy as (a' & b' & c' & -> & Hb' & Hc' & Hl & Hn').
    destruct (year_cycles a' b' c' 3 Hb' Hc' ltac:(lia)) as [Hd Hleap].
    cbv zeta in Hd, Hleap.
    assert (Hleap' : is_leap (a' * 400 + 1 + b' * 100 + c' * 4 + 3) = true).
    { rewrite Hleap. rewrite andb_true_iff, orb_true_iff, negb_true_iff,
        !Z.eqb_eq, Z.eqb_neq. tauto. }
    unfold ymd2ord, days_before_month, days_in_month.
    rewrite Hd, Hleap'. cbn. lia.
  - apply orb_false_iff in Esp. rewrite !Z.eqb_neq in Esp.
    destruct Esp as [Ee Eb].
    destruct (year_cycles a b c e ltac:(lia) Hc ltac:(lia)) as [Hd Hleap].
    cbv zeta in Hd, Hleap. rewrite <- Hleap.
    set (y := a * 400 + 1 + b * 100 + c * 4 + e) in *.
    rewrite Z.shiftr_div_pow2 by lia. change (2 ^ 5) with 32.
    set (m := (f + 50) / 32).
    assert (Hm : 1 <= m <= 12 /\ 32 * m <= f + 50 < 32 * m + 32)
      by (subst m; div_mod_lia).
    clearbody m. destruct Hm as [Hm Hf'].
    assert (Hy : 1 <= y <= 9999) by (subst y; lia).
    clearbody y.
    each_month m Hm; destruct (is_leap y) eqn:El;
      cbn [DAYS_BEFORE_MONTH DAYS_IN_MONTH Z.gtb Z.eqb Z.compare Pos.compare
           Pos.compare_cont Pos.eqb andb Z.add Z.sub Z.opp Z.pos_sub
           Pos.add Pos.succ Pos.pred_double Pos.add_carry Z.succ_double
           Z.pred_double Z.double];
      repeat match goal with
             | |- context [if ?x >? ?z then _ else _] =>
                 destruct (Z.gtb_spec x z)
             end;
      cbn [DAYS_BEFORE_MONTH DAYS_IN_MONTH Z.gtb Z.eqb Z.compare Pos.compare
           Pos.compare_cont Pos.eqb andb Z.add Z.sub Z.opp Z.pos_sub
           Pos.add Pos.succ Pos.pred_double Pos.add_carry Z.succ_double
           Z.pred_double Z.double];
      unfold ymd2ord, days_before_month, days_in_month;
      rewrite ?Hd, ?El; cbn; lia.
Qed.

(** Adding a normalised [timedelta] moves a valid value by that many
    seconds on the naive time line, or leaves the years 1..9999. *)
Lemma datetime_add_spec (dt : datetime) (td : timedelta) :
  valid_datetime dt -> microsecond dt = 0 ->
  0 <= seconds td < 86400 -> microseconds td = 0 ->
  match datetime_add dt td with
  | Ok r =>
      valid_datetime r /\ microsecond r = 0 /\
      naive_seconds r = naive_seconds dt + total_seconds td
  | Raise e =>
      e = OverflowError /\
      (naive_seconds dt + total_seconds td < 0 \/
       MAXORDINAL * 86400 <= naive_seconds dt + total_seconds td)
  end.
Proof.
  destruct dt as [y m d H M S us], td as [dd ds dus].
  unfold valid_datetime, naive_seconds, total_seconds, datetime_add, toordinal.
  cbn [year month day hour minute second microsecond days seconds microseconds].
  intros (Hy & Hm & Hd & HH & HM & HS & _) -> Hds ->.
  change ((0 + 0) / 1000000) with 0. change ((0 + 0) mod 1000000) with 0.
  set (o := ymd2ord y m d). set (s := H * 3600 + M * 60 + S + ds + 0).
  set (n := o + dd + s / 86400).
  destruct ((0 <? n) && (n <=? MAXORDINAL)) eqn:E.
  - apply andb_true_iff in E. destruct E as [E1 E2].
    apply Z.ltb_lt in E1. apply Z.leb_le in E2.
    pose proof (ord2ymd_spec n ltac:(lia)) as Hspec.
    destruct (ord2ymd n) as [[y' m'] d'].
    destruct Hspec as (Hy' & Hm' & Hd' & Hn).
    unfold valid_datetime, naive_seconds, toordinal.
    cbn [year month day hour minute second microsecond].
    rewrite Hn. subst n s. unfold MAXORDINAL in *.
    repeat split; try lia; div_mod_lia.
  - split; [reflexivity|].
    apply andb_false_iff in E. rewrite Z.ltb_ge, Z.leb_gt in E.
    subst n s. unfold MAXORDINAL in *. div_mod_lia.
Qed.

(** ** Runs that create an event *)

Lemma parse_duration_ok (s : str) (td : timedelta) :
  parse_duration s = Ok td ->
  0 <= seconds td < 86400 /\ microseconds td = 0.
Proof.
  intros H.
  assert (G : exists h m, timedelta_new h m = Ok td).
  { unfold parse_duration in H.
    destruct (contains ":" (strip s)).
    - destruct (split ":" (strip s)) as [|hours [|minutes [|]]];
        try discriminate.
      destruct (int hours); [|discriminate].
      destruct (int minutes); [|discriminate]. simpl in H. eauto.
    - destruct (last_char (strip s)) as [c|]; [|discriminate]. simpl in H.
      destruct (Ascii.eqb c "m"); [|destruct (Ascii.eqb c "h"); [|discriminate]];
        destruct (int (but_last (strip s))); try discriminate; simpl in H; eauto. }
  destruct G as (h & m & G). now apply timedelta_new_total in G.
Qed.

Lemma resolve_end_continue (a : args) (s : datetime) (wti : bool)
    (e : datetime) (eti : bool) :
  resolve_end a s wti = Continue (e, eti) ->
  (end_date a <> [] /\ parse_date (end_date a) = Ok (e, eti)) \/
  (end_date a = [] /\ duration a <> [] /\ wti = true /\ eti = true /\
   exists d, parse_duration (duration a) = Ok d /\ datetime_add s d = Ok e) \/
  (end_date a = [] /\ (duration a = [] \/ wti = false) /\ e = s /\ eti = false).
Proof.
  unfold resolve_end. destruct (truthy (end_date a)) eqn:Te.
  - apply truthy_true in Te.
    destruct (parse_date (end_date a)) as [[e' f]|[]]; simpl; try discriminate.
    intros H. injection H as -> ->. auto.
  - apply truthy_false in Te. destruct (truthy (duration a)) eqn:Td; simpl.
    + apply truthy_true in Td. destruct wti.
      * destruct (parse_duration (duration a)) as [d|[]] eqn:Ed; simpl;
          try discriminate.
        destruct (datetime_add s d) as [r|] eqn:Ea; [|discriminate].
        intros H. injection H as -> <-. right. left.
        repeat split; auto. eauto.
      * intros H. injection H as <- <-. right. right. auto.
    + apply truthy_false in Td. intros H. injection H as <- <-.
      right. right. auto.
Qed.

(** The comparison of [main], once both values are valid and without
    microseconds. *)
Lemma validate_naive cal t s wti e eti :
  valid_datetime s -> valid_datetime e ->
  microsecond s = 0 -> microsecond e = 0 ->
  (wti = true -> eti = true) ->
  validate cal t s wti e eti =
    if naive_seconds e <? naive_seconds s then Exit1 EndBeforeStart
    else CreateEvent cal (negb wti) s e t.
Proof.
  intros Hs He Hus Hue Hc. unfold validate.
  assert (E : wti && negb eti = false).
  { destruct wti; [|reflexivity]. now rewrite (Hc eq_refl). }
  rewrite E.
  pose proof (naive_seconds_lt e s He Hs ltac:(congruence)) as Hlt.
  destruct (datetime_lt e s); destruct (Z.ltb_spec (naive_seconds e) (naive_seconds s));
    try reflexivity.
  - assert (naive_seconds e < naive_seconds s) by now apply Hlt. lia.
  - assert (false = true) by now apply Hlt. discriminate.
Qed.

(** X10. The duration path: with the calendar found, a timed start, no
    end date, a duration that parses and a sum inside the years 1..9999,
    the end lies exactly the duration after the start on the naive time
    line; a negative duration ends the run with "End date is before
    start date", any other duration creates a timed event with that
    end. *)
Theorem duration_run store a cal start d e :
  resolve_calendar_by_name store (calendar a) = Some cal ->
  parse_date (date a) = Ok (start, true) ->
  end_date a = [] -> duration a <> [] ->
  parse_duration (duration a) = Ok d ->
  datetime_add start d = Ok e ->
  naive_seconds e = naive_seconds start + total_seconds d /\
  main store a =
    if total_seconds d <? 0 then Exit1 EndBeforeStart
    else CreateEvent cal false start e (title a).
Proof.
  intros Hc Hs He Hd Hp Ha.
  destruct (parse_date_ok _ _ _ Hs) as (Hv & _ & Hus).
  destruct (parse_duration_ok _ _ Hp) as (Hsec & Hdus).
  pose proof (datetime_add_spec start d Hv Hus Hsec Hdus) as Hadd.
  rewrite Ha in Hadd. destruct Hadd as (Hve & Hue & Hn).
  split; [exact Hn|].
  rewrite (main_after_start _ _ _ _ _ Hc Hs).
  assert (Hr : resolve_end a start true = Continue (e, true)).
  { unfold resolve_end. apply truthy_true in Hd.
    rewrite He, Hd. simpl. rewrite Hp. simpl. now rewrite Ha. }
  rewrite Hr, (validate_naive _ _ _ _ _ _ Hv Hve Hus Hue (fun _ => eq_refl)).
  rewrite Hn.
  destruct (Z.ltb_spec (naive_seconds start + total_seconds d) (naive_seconds start));
    destruct (Z.ltb_spec (total_seconds d) 0); try reflexivity; lia.
Qed.

Lemma duration_run_witness :
  naive_seconds (mk_datetime 2024 6 1 10 0 0 0)
    = naive_seconds (mk_datetime 2024 6 1 9 0 0 0)
      + total_seconds (mk_timedelta 0 3600 0) /\
  main store_home args_timed_1h =
    if total_seconds (mk_timedelta 0 3600 0) <? 0 then Exit1 EndBeforeStart
    else CreateEvent (mk_calendar (py "Home") 0) false
           (mk_datetime 2024 6 1 9 0 0 0) (mk_datetime 2024 6 1 10 0 0 0)
           (title args_timed_1h).
Proof.
  apply (duration_run store_home args_timed_1h); try reflexivity. discriminate.
Defined.

Lemma main_create_event_facts store a c b s e t :
  main store a = CreateEvent c b s e t ->
  resolve_calendar_by_name store (calendar a) = Some c /\
  t = title a /\
  valid_datetime s /\ valid_datetime e /\
  microsecond s = 0 /\ microsecond e = 0 /\
  naive_seconds s <= naive_seconds e.
Proof.
  intros H.
  destruct (main_create_event_inv _ _ _ _ _ _ _ H)
    as (wti & eti & Hc & Hs & Hr & Hv).
  destruct (parse_date_ok _ _ _ Hs) as (Hvs & _ & Hus).
  assert (Hend : valid_datetime e /\ microsecond e = 0).
  { destruct (resolve_end_continue _ _ _ _ _ Hr)
      as [(_ & Hp)|[(_ & _ & _ & _ & d & Hp & Ha)|(_ & _ & -> & _)]].
    - destruct (parse_date_ok _ _ _ Hp) as (? & _ & ?). auto.
    - destruct (parse_duration_ok _ _ Hp) as (Hsec & Hdus).
      pose proof (datetime_add_spec s d Hvs Hus Hsec Hdus) as Hadd.
      rewrite Ha in Hadd. tauto.
    - auto. }
  destruct Hend as [Hve Hue].
  assert (Ht : t = title a /\ datetime_lt e s = false).
  { unfold validate in Hv. destruct (wti && negb eti); [discriminate|].
    destruct (datetime_lt e s); [discriminate|].
    injection Hv as _ <-. auto. }
  destruct Ht as [Ht Hlt].
  do 6 (split; [assumption|]).
  pose proof (naive_seconds_lt e s Hve Hvs ltac:(congruence)) as Hiff.
  destruct (Z.lt_ge_cases (naive_seconds e) (naive_seconds s)) as [L|G];
    [|lia].
  apply Hiff in L. congruence.
Qed.

(** X11. What every call of [create_event] is given: the first calendar
    of the store with the requested title, the title argument as it is,
    and a start and an end that are valid values without microseconds,
    the end not before the start on the naive time line. *)
Theorem created_event_invariants store a c b s e t :
  main store a = CreateEvent c b s e t ->
  resolve_calendar_by_name store (calendar a) = Some c /\
  t = title a /\
  valid_datetime s /\ valid_datetime e /\
  microsecond s = 0 /\ microsecond e = 0 /\
  naive_seconds s <= naive_seconds e.
Proof. apply main_create_event_facts. Qed.

Lemma created_event_invariants_witness :
  resolve_calendar_by_name store_home (calendar args_all_day)
    = Some (mk_calendar (py "Home") 0) /\
  py "Holiday" = title args_all_day /\
  valid_datetime (mk_datetime 2024 6 1 0 0 0 0) /\
  valid_datetime (mk_datetime 2024 6 1 0 0 0 0) /\
  microsecond (mk_datetime 2024 6 1 0 0 0 0) = 0 /\
  microsecond (mk_datetime 2024 6 1 0 0 0 0) = 0 /\
  naive_seconds (mk_datetime 2024 6 1 0 0 0 0)
    <= naive_seconds (mk_datetime 2024 6 1 0 0 0 0).
Proof.
  apply (created_event_invariants store_home args_all_day _ true). reflexivity.
Defined.

(** X12. A timed event created without an end date: the duration
    argument parsed, it was not negative, and the end lies exactly that
    duration after the start on the naive time line. *)
Theorem duration_event_span store a c s e t :
  main store a = CreateEvent c false s e t ->
  end_date a = [] ->
  exists d,
    parse_duration (duration a) = Ok d /\
    0 <= total_seconds d /\
    naive_seconds e = naive_seconds s + total_seconds d.
Proof.
  intros H He.
  destruct (main_create_event_facts _ _ _ _ _ _ _ H)
    as (_ & _ & Hvs & _ & Hus & _ & Hle).
  destruct (main_create_event_inv _ _ _ _ _ _ _ H)
    as (wti & eti & _ & Hs & Hr & Hv).
  assert (Hw : wti = true /\ eti = true).
  { unfold validate in Hv. destruct wti, eti; simpl in Hv; try discriminate;
      auto; destruct (datetime_lt e s); discriminate. }
  destruct Hw as [-> ->].
  destruct (resolve_end_continue _ _ _ _ _ Hr)
    as [(Hne & _)|[(_ & _ & _ & _ & d & Hp & Ha)|(_ & _ & _ & Hf)]];
    [congruence| |discriminate].
  destruct (parse_duration_ok _ _ Hp) as (Hsec & Hdus).
  pose proof (datetime_add_spec s d Hvs Hus Hsec Hdus) as Hadd.
  rewrite Ha in Hadd. destruct Hadd as (_ & _ & Hn).
  exists d. repeat split; [exact Hp|lia|exact Hn].
Qed.

Lemma duration_event_span_witness :
  exists d,
    parse_duration (duration args_timed_1h) = Ok d /\
    0 <= total_seconds d /\
    naive_seconds (mk_datetime 2024 6 1 10 0 0 0)
      = naive_seconds (mk_datetime 2024 6 1 9 0 0 0) + total_seconds d.
Proof.
  apply (duration_event_span store_home args_timed_1h
           (mk_calendar (py "Home") 0) _ _ (py "Standup"));
    reflexivity.
Defined.

(** X13. The end-date path: with the calendar found, a start that
    parses and an end date that parses, the duration argument plays no
    part; a timed start with a date-only end is refused, then an end
    earlier on the naive time line is refused, and otherwise the event is
    created, all-day exactly when the start has no time, also when the
    end has one. *)
Theorem end_date_run store a cal s wti e eti :
  resolve_calendar_by_name store (calendar a) = Some cal ->
  parse_date (date a) = Ok (s, wti) ->
  end_date a <> [] ->
  parse_date (end_date a) = Ok (e, eti) ->
  main store a =
    if wti && negb eti then Exit1 InconsistentTimeSpecification
    else if naive_seconds e <? naive_seconds s then Exit1 EndBeforeStart
    else CreateEvent cal (negb wti) s e (title a).
Proof.
  intros Hc Hs Hne He.
  destruct (parse_date_ok _ _ _ Hs) as (Hvs & _ & Hus).
  destruct (parse_date_ok _ _ _ He) as (Hve & _ & Hue).
  rewrite (main_after_start _ _ _ _ _ Hc Hs).
  assert (Hr : resolve_end a s wti = Continue (e, eti)).
  { unfold resolve_end. apply truthy_true in Hne. now rewrite Hne, He. }
  rewrite Hr. destruct (wti && negb eti) eqn:E.
  - unfold validate. now rewrite E.
  - apply validate_naive; auto. intros ->. now destruct eti.
Qed.

Lemma end_date_run_witness :
  main store_home args_dateonly_timed_end =
    if false && negb true then Exit1 InconsistentTimeSpecification
    else if naive_seconds (mk_datetime 2024 6 1 18 30 0 0)
            <? naive_seconds (mk_datetime 2024 6 1 0 0 0 0)
         then Exit1 EndBeforeStart
         else CreateEvent (mk_calendar (py "Home") 0) (negb false)
                (mk_datetime 2024 6 1 0 0 0 0) (mk_datetime 2024 6 1 18 30 0 0)
                (title args_dateonly_timed_end).
Proof.
  apply (end_date_run store_home args_dateonly_timed_end); try reflexivity.
  discriminate.
Defined.

(** X14. A date-only start without an end date always gives a one-day
    all-day event, start and end the same midnight, whatever the
    duration argument holds (it is not parsed, so even a malformed one
    passes). *)
Theorem date_only_start_alone store a cal s :
  resolve_calendar_by_name store (calendar a) = Some cal ->
  parse_date (date a) = Ok (s, false) ->
  end_date a = [] ->
  main store a = CreateEvent cal true s s (title a).
Proof.
  intros Hc Hs He. rewrite (main_after_start _ _ _ _ _ Hc Hs).
  unfold resolve_end. rewrite He. simpl. rewrite andb_false_r.
  unfold validate. simpl. now rewrite datetime_lt_irrefl.
Qed.

Lemma date_only_start_alone_witness :
  main store_home args_dateonly_bad_duration
    = CreateEvent (mk_calendar (py "Home") 0) true
        (mk_datetime 2024 6 1 0 0 0 0) (mk_datetime 2024 6 1 0 0 0 0)
        (title args_dateonly_bad_duration).
Proof.
  apply (date_only_start_alone store_home args_dateonly_bad_duration);
    reflexivity.
Defined.

(** ** The separator between date and time *)

(** X15. A valid date and time written [YYYY-MM-DDTHH:MM] or
    [YYYY-MM-DD HH:MM] parses to that date, hour and minute, second
    zero, with the time flag true. *)
Theorem parse_date_with_time (y m d H M : Z) :
  1 <= y <= 9999 -> 1 <= m <= 12 -> 1 <= d <= days_in_month y m ->
  0 <= H <= 23 -> 0 <= M <= 59 ->
  parse_date (datetime_string "T" y m d H M)
    = Ok (mk_datetime y m d H M 0 0, true) /\
  parse_date (datetime_string " " y m d H M)
    = Ok (mk_datetime y m d H M 0 0, true).
Proof. intros. split; apply parse_date_timed; auto. Qed.

Lemma parse_date_with_time_witness :
  parse_date (datetime_string "T" 2024 2 29 23 59)
    = Ok (mk_datetime 2024 2 29 23 59 0 0, true) /\
  parse_date (datetime_string " " 2024 2 29 23 59)
    = Ok (mk_datetime 2024 2 29 23 59 0 0, true).
Proof.
  apply (parse_date_with_time 2024 2 29 23 59); vm_compute; split; discriminate.
Defined.

Lemma datetime_string_contains (c sep : ascii) (y m d H M : Z) :
  c = "T"%char \/ c = " "%char ->
  0 <= y <= 9999 -> 0 <= m <= 99 -> 0 <= d <= 99 ->
  0 <= H <= 99 -> 0 <= M <= 99 ->
  strip (datetime_string sep y m d H M) = datetime_string sep y m d H M /\
  contains c (datetime_string sep y m d H M) = Ascii.eqb c sep.
Proof.
  intros Hc Hy Hm Hd HH HM.
  destruct (four_digits_decomp y Hy) as (Ha & Hb & Hcc & He & _).
  destruct (two_digits_decomp m Hm) as (Hm1 & Hm2 & _).
  destruct (two_digits_decomp d Hd) as (Hd1 & Hd2 & _).
  destruct (two_digits_decomp H HH) as (HH1 & HH2 & _).
  destruct (two_digits_decomp M HM) as (HM1 & HM2 & _).
  unfold datetime_string, time_string, date_string, four_digits, two_digits.
  digit_facts (y / 1000) Ha. digit_facts (y / 100 mod 10) Hb.
  digit_facts (y / 10 mod 10) Hcc. digit_facts (y mod 10) He.
  digit_facts (m / 10) Hm1. digit_facts (m mod 10) Hm2.
  digit_facts (d / 10) Hd1. digit_facts (d mod 10) Hd2.
  digit_facts (H / 10) HH1. digit_facts (H mod 10) HH2.
  digit_facts (M / 10) HM1. digit_facts (M mod 10) HM2.
  cbn [app]. split.
  - unfold strip.
    match goal with
    | |- strip_with _ (?a :: ?l) = _ =>
        let r := eval cbn [removelast] in (removelast l) in
        change (a :: l) with (a :: r ++ [digit_char (M mod 10)])
    end.
    now rewrite strip_with_id.
  - cbn [contains existsb]. remember (Ascii.eqb c sep) as b eqn:Eb.
    destruct Hc as [-> | ->];
      repeat match goal with
             | E : Ascii.eqb "T" (digit_char _) = false |- _ =>
                 rewrite ?E; clear E
             | E : Ascii.eqb " " (digit_char _) = false |- _ =>
                 rewrite ?E; clear E
             end;
      cbn; apply orb_false_r.
Qed.

(** A valid date followed by anything: the date format matches the date
    and leaves the rest. *)
Lemma match_date_prefix (y m d : Z) (rest : str)
    (aY am ad : list (list cclass)) :
  directive "Y" = Some aY -> directive "m" = Some am ->
  directive "d" = Some ad ->
  0 <= y <= 9999 -> 1 <= m <= 12 -> 1 <= d <= 31 ->
  match_tokens [TGroup "Y" aY; TLit "-"; TGroup "m" am; TLit "-"; TGroup "d" ad]
    (date_string y m d ++ rest) []
  = Some ([("d"%char, two_digits d); ("m"%char, two_digits m);
           ("Y"%char, four_digits y)], rest).
Proof.
  intros EY Em Ed Hy Hm Hd.
  assert (EY' := EY). vm_compute in EY'. injection EY' as <-.
  unfold date_string.
  repeat (rewrite <- app_assoc; cbn [app]).
  rewrite match_tokens_group. apply match_year_group; [exact Hy|].
  rewrite match_tokens_lit by reflexivity.
  rewrite match_tokens_group. apply match_month_group; [exact Em|exact Hm|].
  rewrite match_tokens_lit by reflexivity.
  rewrite match_tokens_group. apply match_day_group; [exact Ed|exact Hd|].
  reflexivity.
Qed.

(** X16. Only an upper-case [T] or a space separates the date from the
    time: with any other character between a valid date and a valid
    time (a lower-case [t], a tab, an underscore) the date-only format
    is selected, it leaves the time unread, and [parse_date] raises
    [ValueError]. *)
Theorem parse_date_other_separator (sep : ascii) (y m d H M : Z) :
  sep <> "T"%char -> sep <> " "%char ->
  1 <= y <= 9999 -> 1 <= m <= 12 -> 1 <= d <= days_in_month y m ->
  0 <= H <= 23 -> 0 <= M <= 59 ->
  parse_date (datetime_string sep y m d H M) = Raise ValueError.
Proof.
  intros HT Hsp Hy Hm Hd HH HM. pose proof (days_in_month_le_31 y m) as H31.
  destruct (datetime_string_contains "T" sep y m d H M) as (Hs & HcT);
    [auto|lia..|].
  destruct (datetime_string_contains " " sep y m d H M) as (_ & Hcs);
    [auto|lia..|].
  assert (ET : Ascii.eqb "T" sep = false) by (apply Ascii.eqb_neq; congruence).
  assert (Es : Ascii.eqb " " sep = false) by (apply Ascii.eqb_neq; congruence).
  unfold parse_date. rewrite Hs, HcT, Hcs, ET, Es. cbn [orb].
  pose proof parse_date_patterns as P. cbv zeta in P.
  destruct P as (_ & _ & P). unfold strptime. rewrite P.
  unfold datetime_string.
  rewrite (match_date_prefix y m d (sep :: time_string H M))
    by (try reflexivity; lia).
  reflexivity.
Qed.

Lemma parse_date_other_separator_witness :
  parse_date (datetime_string "t" 2024 6 1 9 0) = Raise ValueError.
Proof.
  apply (parse_date_other_separator "t" 2024 6 1 9 0);
    try discriminate; vm_compute; split; discriminate.
Defined.

(** ** Blank arguments and the remaining diagnostics *)

(** X17. A date string that is empty once trimmed is rejected with
    [ValueError], the exception [main] reports as a date error (where a
    blank duration escapes as an [IndexError]). *)
Theorem parse_date_blank (s : str) :
  strip s = [] -> parse_date s = Raise ValueError.
Proof. intros H. unfold parse_date. rewrite H. reflexivity. Qed.

Lemma parse_date_blank_witness : parse_date (py "  ") = Raise ValueError.
Proof. apply parse_date_blank. reflexivity. Defined.

(** X18. "Error parsing end date" is printed exactly when the calendar
    exists, the start parses, an end date is given and [parse_date]
    rejects it; the duration is not looked at. *)
Theorem invalid_end_date_iff (store : EKEventStore) (a : args) :
  main store a = Exit1 InvalidEndDateFormat <->
  (exists cal, resolve_calendar_by_name store (calendar a) = Some cal) /\
  (exists start wti, parse_date (date a) = Ok (start, wti)) /\
  end_date a <> [] /\ parse_date (end_date a) = Raise ValueError.
Proof.
  unfold main.
  destruct (resolve_calendar_by_name store (calendar a)) as [cal|];
    [|split; [discriminate|intros [[c H] _]; discriminate]].
  destruct (parse_date (date a)) as [[start wti]|x] eqn:Es; simpl.
  - destruct (resolve_end a start wti) as [[e eti]|o] eqn:Er.
    + split.
      * intros H. destruct (validate_cases cal (title a) start wti e eti)
          as [V|[V|V]]; rewrite V in H; discriminate.
      * intros (_ & _ & Hne & Hp). exfalso.
        unfold resolve_end in Er. apply truthy_true in Hne.
        rewrite Hne, Hp in Er. discriminate.
    + split.
      * intros ->. apply resolve_end_stop in Er.
        destruct Er as [(_ & Hne & Hp)|(_ & _ & _ & [(Ho & _)|[(x & Ho & _)|(d & Ho & _)]])];
          try discriminate.
        repeat split; eauto.
      * intros (_ & _ & Hne & Hp).
        unfold resolve_end in Er. apply truthy_true in Hne.
        rewrite Hne, Hp in Er. simpl in Er. now injection Er as <-.
  - rewrite (parse_date_raises _ _ Es). split; [discriminate|].
    intros (_ & (st & w & H) & _). discriminate.
Qed.

(** X19. "Error parsing duration" is printed exactly when the calendar
    exists, the start parses with a time, no end date is given, and
    [parse_duration] raises [ValueError] on a non-empty duration: with
    an end date or a date-only start a malformed duration goes
    unnoticed. *)
Theorem invalid_duration_iff (store : EKEventStore) (a : args) :
  main store a = Exit1 InvalidDurationFormat <->
  (exists cal, resolve_calendar_by_name store (calendar a) = Some cal) /\
  (exists start, parse_date (date a) = Ok (start, true)) /\
  end_date a = [] /\ duration a <> [] /\
  parse_duration (duration a) = Raise ValueError.
Proof.
  unfold main.
  destruct (resolve_calendar_by_name store (calendar a)) as [cal|];
    [|split; [discriminate|intros [[c H] _]; discriminate]].
  destruct (parse_date (date a)) as [[start wti]|x] eqn:Es; simpl.
  - assert (Hr : end_date a = [] -> duration a <> [] ->
                 parse_duration (duration a) = Raise ValueError ->
                 resolve_end a start true = Stop (Exit1 InvalidDurationFormat)).
    { intros He Hd Hp. unfold resolve_end. apply truthy_true in Hd.
      rewrite He, Hd, Hp. reflexivity. }
    destruct (resolve_end a start wti) as [[e eti]|o] eqn:Er.
    + split.
      * intros H. destruct (validate_cases cal (title a) start wti e eti)
          as [V|[V|V]]; rewrite V in H; discriminate.
      * intros (_ & (st & Hst) & He & Hd & Hp). injection Hst as <- ->.
        rewrite (Hr He Hd Hp) in Er. discriminate.
    + split.
      * intros ->. apply resolve_end_stop in Er.
        destruct Er as [(Ho & _)|(He & Hd & -> & [(_ & Hp)|[(x & Ho & _)|(d & Ho & _)]])];
          try discriminate.
        repeat split; eauto.
      * intros (_ & (st & Hst) & He & Hd & Hp). injection Hst as <- ->.
        rewrite (Hr He Hd Hp) in Er. now injection Er as <-.
  - rewrite (parse_date_raises _ _ Es). split; [discriminate|].
    intros (_ & (st & H) & _). discriminate.
Qed.

Lemma split_two (sep : ascii) (s a b : str) :
  split sep s = [a; b] -> s = a ++ sep :: b.
Proof.
  revert a. induction s as [|c s IH]; simpl; intros a H; [discriminate|].
  destruct (Ascii.eqb c sep) eqn:E.
  - apply Ascii.eqb_eq in E. subst c. injection H as <- H.
    assert (Hs : contains sep s = false).
    { destruct (contains sep s) eqn:Ec; [|reflexivity].
      apply contains_count in Ec. pose proof (split_length sep s) as Hl.
      rewrite H in Hl. simpl in Hl. lia. }
    rewrite (split_no_sep _ _ Hs) in H. now injection H as <-.
  - destruct (split sep s) as [|p ps] eqn:Ep; [discriminate|].
    injection H as <- ->. simpl. f_equal. now apply IH.
Qed.

(** X20. [parse_duration] accepts nothing but the three shapes: when it
    returns a value, the trimmed string is ["hs:ms"], ["p" + "m"] or
    ["p" + "h"] with parts that [int] reads, and the value is the
    [timedelta] of those hours and minutes. *)
Theorem parse_duration_accepts_only (s : str) (td : timedelta) :
  parse_duration s = Ok td ->
  (exists hs ms h m,
     strip s = hs ++ py ":" ++ ms /\ int hs = Ok h /\ int ms = Ok m /\
     timedelta_new h m = Ok td) \/
  (exists p n,
     strip s = p ++ py "m" /\ int p = Ok n /\ timedelta_new 0 n = Ok td) \/
  (exists p n,
     strip s = p ++ py "h" /\ int p = Ok n /\ timedelta_new n 0 = Ok td).
Proof.
  unfold parse_duration. destruct (contains ":" (strip s)).
  - destruct (split ":" (strip s)) as [|hs [|ms [|]]] eqn:E; try discriminate.
    destruct (int hs) as [h|] eqn:Eh; [|discriminate].
    destruct (int ms) as [m|] eqn:Em; [|discriminate]. simpl.
    intros H. left. exists hs, ms, h, m. apply split_two in E. auto.
  - unfold last_char, but_last.
    destruct (strip s) as [|x t]; [discriminate|].
    destruct (exists_last (l := x :: t)) as (p & c & E); [discriminate|].
    rewrite E, rev_app_distr, removelast_last. simpl.
    destruct (Ascii.eqb c "m") eqn:Ec.
    + apply Ascii.eqb_eq in Ec. subst c.
      destruct (int p) as [n|] eqn:Ep; [|discriminate]. simpl.
      intros H. right. left. exists p, n. auto.
    + destruct (Ascii.eqb c "h") eqn:Ec'; [|discriminate].
      apply Ascii.eqb_eq in Ec'. subst c.
      destruct (int p) as [n|] eqn:Ep; [|discriminate]. simpl.
      intros H. right. right. exists p, n. auto.
Qed.

Lemma parse_duration_accepts_only_witness :
  (exists hs ms h m,
     strip (py " 1:30") = hs ++ py ":" ++ ms /\ int hs = Ok h /\ int ms = Ok m /\
     timedelta_new h m = Ok (mk_timedelta 0 5400 0)) \/
  (exists p n,
     strip (py " 1:30") = p ++ py "m" /\ int p = Ok n /\
     timedelta_new 0 n = Ok (mk_timedelta 0 5400 0)) \/
  (exists p n,
     strip (py " 1:30") = p ++ py "h" /\ int p = Ok n /\
     timedelta_new n 0 = Ok (mk_timedelta 0 5400 0)).
Proof.
  apply (parse_duration_accepts_only (py " 1:30")). reflexivity.
Defined.
